(** * BookMyShow bookings watcher: a shallow embedding of [main.go]

    The repository ships two variants of the same program: the
    per-theatre incremental watcher (record [MovieDetails] with a
    [Theatres] field) and the first-availability watcher (no [Theatres]
    field, one summary alert and an IFTTT call).  Both are embedded
    below, each in its own module, over a common prelude that models the
    Go values the program manipulates (strings as byte sequences, slices
    that may be nil, [fmt.Sprintf], [encoding/json] at the level of JSON
    values) and the outside world (browser, Telegram, IFTTT, file
    system) as explicit oracles. *)

From Stdlib Require Import ZArith String Ascii List Lia DecimalString.
From stdpp Require Import base option list strings.

Set Warnings "-register-all".

Local Open Scope Z_scope.

(** ** Go values *)

Module Go.

(** A Go slice is either [nil] or a (possibly empty) sequence; the two
    are told apart by [encoding/json] ([null] against [[]]). *)
Definition slice (A : Type) : Type := option (list A).

Definition elems {A} (s : slice A) : list A := default [] s.

(** [append(s, x)]: the result is never nil. *)
Definition append {A} (s : slice A) (x : A) : slice A := Some (elems s ++ [x]).

(** [s[lo:hi]] on a string (a byte sequence): [None] is the run-time
    panic "slice bounds out of range". *)
Definition substr (s : string) (lo hi : nat) : option string :=
  if ((lo <=? hi)%nat && (hi <=? String.length s)%nat)%bool
  then Some (substring lo (hi - lo) s)
  else None.

(** Arguments of [fmt.Sprintf]: the program only passes strings to
    [%s] and ints to [%d]. *)
Inductive arg : Type :=
| Str (s : string)
| Int (z : Z).

Definition itoa (z : Z) : string := NilZero.string_of_int (Z.to_int z).

(** One verb applied to one argument: [%s] and [%v] print a string
    (or an error's text) as it is, [%d] and [%v] print an int in
    decimal; anything else is Go's bad-verb marker. *)
Definition verb (v : ascii) (a : arg) : string :=
  match a with
  | Str s =>
      if (Ascii.eqb v "s" || Ascii.eqb v "v")%bool then s
      else "%!" +:+ String v "(string=" +:+ s +:+ ")"
  | Int z =>
      if (Ascii.eqb v "d" || Ascii.eqb v "v")%bool then itoa z
      else "%!" +:+ String v "(int=" +:+ itoa z +:+ ")"
  end.

(** [fmt.Sprintf(format, args...)], for formats made of plain bytes and
    one-letter verbs. *)
Fixpoint Sprintf (format : string) (args : list arg) : string :=
  match format with
  | EmptyString => EmptyString
  | String c EmptyString => String c EmptyString
  | String c (String v rest as tl) =>
      if Ascii.eqb c "%" then
        match args with
        | a :: args' => verb v a +:+ Sprintf rest args'
        | [] => "%!" +:+ String v "(MISSING)" +:+ Sprintf rest []
        end
      else String c (Sprintf tl args)
  end.

(** The line feed written [\n] in the source. *)
Definition nl : string := String (ascii_of_nat 10) EmptyString.

End Go.

(** ** Names of the two files the program touches *)

Definition moviesFilename : string := "bms.json".
Definition logFilename : string := "bms.log".

(** ** Telegram payload *)

Record TelegramButton : Type := {
  Text : string;
  URL : string
}.

(** Both callers build the keyboard from slice literals, so neither
    the list of rows nor a row is ever nil (a nil slice would be
    marshalled as [null]); plain lists stand for them. *)
Record TelegramKeyboard : Type := {
  InlineKeyboard : list (list TelegramButton)
}.

(** [showDate[6:8], showDate[4:6], showDate[0:4]] joined by ["%s-%s-%s"]:
    the first slice expression that is out of range panics. *)
Definition formattedDate (showDate : string) : option string :=
  dd ← Go.substr showDate 6 8;
  mm ← Go.substr showDate 4 6;
  yyyy ← Go.substr showDate 0 4;
  Some (Go.Sprintf "%s-%s-%s" [Go.Str dd; Go.Str mm; Go.Str yyyy]).

Definition bookingKeyboard (bookingURL : string) : TelegramKeyboard :=
  {| InlineKeyboard := [[ {| Text := "🎟️ Book Now"; URL := bookingURL |} ]] |}.

(** ** JSON values and the rules of [encoding/json] the program relies on

    The state file and the HTTP payloads are handled at the level of
    parsed JSON values; the text layout ([MarshalIndent]'s four-space
    indentation) is below this level.  A [JString] holds the Go string
    the decoder produces for it. *)

Module JSON.

Inductive value : Type :=
| JNull
| JBool (b : bool)
| JNumber (literal : string)
| JString (s : string)
| JArray (items : list value)
| JObject (members : list (string * value)).

(** [json.Unmarshal] into a [string] / [bool] location holding [old]:
    [null] leaves the location alone, a value of another JSON type is
    an [UnmarshalTypeError] ([None]). *)
Definition into_string (old : string) (v : value) : option string :=
  match v with
  | JString s => Some s
  | JNull => Some old
  | _ => None
  end.

Definition into_bool (old : bool) (v : value) : option bool :=
  match v with
  | JBool b => Some b
  | JNull => Some old
  | _ => None
  end.

(** Into a [[]string] location holding [old]: the slice is reset to
    length zero and every array element is appended (so the result is
    never nil, also for an empty array); [null] sets the slice to nil,
    whatever it held. *)
Definition into_strings (old : Go.slice string) (v : value) : option (Go.slice string) :=
  match v with
  | JArray items => Some <$> mapM (into_string "") items
  | JNull => Some None
  | _ => None
  end.

Section Struct.
(** The decoder's key folding ([foldName]) is kept abstract. *)
Variable foldName : string -> string.
Context {T : Type}.
(** [tags]: the struct's JSON field names in declaration order;
    [set tag v t]: decode [v] into the field named [tag] of [t]. *)
Variable tags : list string.
Variable set : string -> value -> T -> option T.

(** A key selects the field with exactly that name, else the first
    field whose folded name equals the folded key, else nothing
    (unknown keys are skipped). *)
Definition field (key : string) : option string :=
  match find (String.eqb key) tags with
  | Some tag => Some tag
  | None => find (fun tag => String.eqb (foldName tag) (foldName key)) tags
  end.

Definition member (t : T) (kv : string * value) : option T :=
  match field (fst kv) with
  | Some tag => set tag (snd kv) t
  | None => Some t
  end.

Fixpoint members_into (t : T) (members : list (string * value)) : option T :=
  match members with
  | [] => Some t
  | kv :: rest => t' ← member t kv; members_into t' rest
  end.

(** Into a struct location holding [old]: members are decoded in
    document order. *)
Definition into_struct (old : T) (v : value) : option T :=
  match v with
  | JObject members => members_into old members
  | JNull => Some old
  | _ => None
  end.

(** Into a [[]T] location holding [old]; every element starts from
    the zero value [zero]; [null] sets the slice to nil. *)
Definition into_structs (zero : T) (old : Go.slice T) (v : value) : option (Go.slice T) :=
  match v with
  | JArray items => Some <$> mapM (into_struct zero) items
  | JNull => Some None
  | _ => None
  end.
End Struct.

(** [json.Marshal] of a [[]string]: nil is [null]. *)
Definition of_strings (s : Go.slice string) : value :=
  match s with
  | None => JNull
  | Some l => JArray (JString <$> l)
  end.

Definition of_structs {T} (of_struct : T -> value) (s : Go.slice T) : value :=
  match s with
  | None => JNull
  | Some l => JArray (of_struct <$> l)
  end.

End JSON.

Import JSON.

(** ** The outside world *)

(** Go's [error]: [None] is nil, otherwise the error's text. *)
Definition error : Type := option string.

(** What a file (or a response body) holds, as far as the JSON decoder
    is concerned: bytes it rejects with a syntax error, or a document. *)
Inductive content : Type :=
| Malformed (err : string)
| Doc (v : value).

(** A file system maps a name to what [os.ReadFile] returns; [None] is
    a read error. *)
Definition FS : Type := string -> option content.

Definition writeFS (fs : FS) (filename : string) (c : content) : FS :=
  fun f => if String.eqb f filename then Some c else fs f.

(** One theatre item of the rendered page, as the incremental watcher
    queries it:
    - [nameDiv]: [theatreEl.Element(name selector)]; [None] when the
      lookup returns an error (and a nil element), otherwise what
      [Text()] returns on the element found ([None] when [Text] itself
      returns an error);
    - [shows]: [theatreEl.Elements(show selector)]; [None] when the
      lookup returns an error (and a nil list), otherwise the number of
      elements found. *)
Record Element : Type := {
  nameDiv : option (option string);
  shows : option nat
}.

(** What happens when the program opens the booking page of a target. *)
Inductive Visit : Type :=
| ConnectFailed   (** [browser.Connect()] returns an error *)
| PageFailed      (** [stealth.MustPage], [MustNavigate] or [MustWaitDOMStable] panics *)
| NoContainer     (** [page.Element(container selector)] returns an error *)
| NoElements      (** [theatreContainer.Elements(item selector)] returns an error *)
| Listed (theatreElements : list Element).

(** What [http.Post] and the reading of the response give. *)
Inductive Response : Type :=
| RequestFailed (err : string)    (** [http.Post] returns an error *)
| BodyUnreadable (err : string)   (** reading the response body fails *)
| Body (c : content).

(** An external call the program made, in order of occurrence. *)
Record Event : Type := {
  url : string;
  payload : value;
  response : Response
}.

(** Everything the program takes from outside: the globals [init] sets
    from the environment, the library functions kept abstract, and the
    answers of the browser, of the HTTP endpoints (which may depend on
    the calls made so far) and of [os.WriteFile]; [leftBehind] is what a
    file that held [old] holds after a failed write of [new] (the file
    as it was, an empty or a partial file). *)
Record Env : Type := {
  telegramBotToken : string;
  telegramChatID : string;
  iftttWebhookAPI : string;
  foldName : string -> string;
  Title : string -> string;
  browse : nat -> string -> Visit;
  httpPost : list Event -> string -> value -> Response;
  writeFile : string -> content -> error;
  leftBehind : string -> option content -> content -> option content
}.

(** ** Computations that may panic or exit

    [Panic] is a run-time panic unwinding to [main]'s deferred
    [recover]; [Fatal] is [logger.Fatal], which exits the process.  The
    state reached so far is kept in both cases: the calls already made
    to the outside world are not undone. *)

Inductive outcome (A : Type) : Type :=
| Ok (a : A)
| Panic
| Fatal.
Arguments Ok {A} a.
Arguments Panic {A}.
Arguments Fatal {A}.

Definition M (S A : Type) : Type := S -> outcome A * S.

Definition ret {S A} (a : A) : M S A := fun s => (Ok a, s).

Definition bind {S A B} (c : M S A) (k : A -> M S B) : M S B :=
  fun s =>
    match c s with
    | (Ok a, s') => k a s'
    | (Panic, s') => (Panic, s')
    | (Fatal, s') => (Fatal, s')
    end.

Definition panic {S A} : M S A := fun s => (Panic, s).
Definition fatal {S A} : M S A := fun s => (Fatal, s).
Definition skip {S} : M S unit := ret tt.
Definition get {S} : M S S := fun s => (Ok s, s).

(** A Go expression that may panic. *)
Definition orPanic {S A} (o : option A) : M S A :=
  match o with
  | Some a => ret a
  | None => panic
  end.

Declare Scope go_scope.
Delimit Scope go_scope with go.
Notation "x <- c ;; k" := (bind c (fun x => k))
  (at level 100, c at next level, right associativity) : go_scope.
Notation "c ;;; k" := (bind c (fun _ => k))
  (at level 100, right associativity) : go_scope.

(** [for _, x := range l { body x }] *)
Fixpoint forEach {S A} (l : list A) (body : A -> M S unit) : M S unit :=
  match l with
  | [] => ret tt
  | x :: l' => bind (body x) (fun _ => forEach l' body)
  end.

(** The program's memory: the list loaded from the state file, mutated
    in place, and the HTTP calls made so far.  Log lines are not part of
    the model. *)
Record State (T : Type) : Type := {
  moviesList : Go.slice T;
  calls : list Event
}.
Arguments moviesList {T} _.
Arguments calls {T} _.

(** The memory with [moviesList[i]] replaced by [m]. *)
Definition stored {T} (i : nat) (m : T) (st : State T) : State T :=
  {| moviesList := match moviesList st with
                   | Some l => Some (<[i := m]> l)
                   | None => None
                   end;
     calls := calls st |}.

(** Reading [moviesList[i]] (an index out of range panics) and
    assigning to it. *)
Definition movieAt {T} (i : nat) : M (State T) T :=
  fun st => orPanic (Go.elems (moviesList st) !! i) st.

Definition setMovieAt {T} (i : nat) (m : T) : M (State T) unit :=
  fun st => (Ok tt, stored i m st).

Definition Errorf (format : string) (args : list Go.arg) : error :=
  Some (Go.Sprintf format args).

(** [http.Post(url, "application/json", body)]: the call is recorded
    with the answer the world gives. *)
Definition Post {T} (e : Env) (apiURL : string) (body : value) : M (State T) Response :=
  fun st =>
    let r := httpPost e (calls st) apiURL body in
    (Ok r, {| moviesList := moviesList st;
              calls := calls st ++ [ {| url := apiURL; payload := body; response := r |} ] |}).

Definition of_keyboard (k : TelegramKeyboard) : value :=
  JObject [("inline_keyboard",
            JArray ((fun row => JArray ((fun b => JObject [("text", JString (Text b));
                                                           ("url", JString (URL b))]) <$> row))
                    <$> InlineKeyboard k))].

(** The anonymous struct the Telegram answer is decoded into. *)
Record apiResponse : Type := {
  ApiOk : bool;
  Description : string
}.

Definition set_apiResponse (tag : string) (v : value) (r : apiResponse) : option apiResponse :=
  if String.eqb tag "ok" then
    b ← into_bool (ApiOk r) v; Some {| ApiOk := b; Description := Description r |}
  else if String.eqb tag "description" then
    d ← into_string (Description r) v; Some {| ApiOk := ApiOk r; Description := d |}
  else Some r.

(** The request body of [sendTelegramNotification]: a Go map is
    marshalled with its keys sorted.  Strings stand for their bytes:
    the replacement of bytes that are not valid UTF-8, which
    [json.Marshal] makes when it writes a string, is below this
    model. *)
Definition telegramPayload (chatID message parseMode : string)
    (keyboard : TelegramKeyboard) : value :=
  JObject [("chat_id", JString chatID);
           ("parse_mode", JString parseMode);
           ("reply_markup", of_keyboard keyboard);
           ("text", JString message)].

Definition apiURL (e : Env) : string :=
  Go.Sprintf "https://api.telegram.org/bot%s/sendMessage" [Go.Str (telegramBotToken e)].

(** The text of the decoder's type error, abridged. *)
Definition UnmarshalTypeError : string := "json: cannot unmarshal".

(** What [sendTelegramNotification] returns for a given answer. *)
Definition telegramError (e : Env) (response : Response) : error :=
  match response with
  | RequestFailed err => Errorf "error making telegram request: %v" [Go.Str err]
  | BodyUnreadable err => Errorf "error decoding response: %v" [Go.Str err]
  | Body (Malformed err) => Errorf "error decoding response: %v" [Go.Str err]
  | Body (Doc v) =>
      match into_struct (foldName e) ["ok"; "description"] set_apiResponse
              {| ApiOk := false; Description := "" |} v with
      | None => Errorf "error decoding response: %v" [Go.Str UnmarshalTypeError]
      | Some apiResponse =>
          if ApiOk apiResponse then None
          else Errorf "telegram API error: %s" [Go.Str (Description apiResponse)]
      end
  end.

Definition sendTelegramNotification {T} (e : Env)
    (chatID message parseMode : string) (keyboard : TelegramKeyboard) : M (State T) error :=
  (response <- Post e (apiURL e) (telegramPayload chatID message parseMode keyboard) ;;
   ret (telegramError e response))%go.

Definition sendIFTTTVoipCall {T} (e : Env) (value : string) : M (State T) error :=
  let payload := JObject [("value1", JString value)] in
  (response <- Post e (iftttWebhookAPI e) payload ;;
   match response with
   | RequestFailed err => ret (Errorf "error making IFTTT request: %v" [Go.Str err])
   | BodyUnreadable err => ret (Errorf "error reading response body: %v" [Go.Str err])
   | Body _ => ret None
   end)%go.

(** How a run of [main] ends. *)
Inductive Exit : Type :=
| Completed (saveErr : error)  (** the loop finished and [saveMoviesToJSON] was called *)
| Recovered                    (** a panic unwound [main]; the deferred handler logged it *)
| Exited.                      (** [logger.Fatal] ended the process *)

(** What a run leaves behind.  [files] follows what [os.WriteFile]
    does to the state file; the lines the logger appends to [bms.log]
    are not part of the model. *)
Record Run (T : Type) : Type := {
  exit : Exit;
  files : FS;
  posted : list Event;
  memory : Go.slice T
}.
Arguments exit {T} _.
Arguments files {T} _.
Arguments posted {T} _.
Arguments memory {T} _.

(** ** [slices.Contains] *)

Module slices.
Definition Contains (s : Go.slice string) (v : string) : bool :=
  existsb (String.eqb v) (Go.elems s).
End slices.

(** ** The per-theatre incremental watcher *)

Module Theatre.
Record TheatreDetails : Type := {
  Name : string;
  ShowCount : Z
}.
End Theatre.

Module Incremental.

Record MovieDetails : Type := {
  Name : string;
  SlugName : string;
  Code : string;
  City : string;
  CityCode : string;
  Date : string;
  Found : bool;
  Theatres : Go.slice string
}.

Definition zero : MovieDetails :=
  {| Name := ""; SlugName := ""; Code := ""; City := ""; CityCode := "";
     Date := ""; Found := false; Theatres := None |}.

(** [m.Theatres = ts] *)
Definition setTheatres (m : MovieDetails) (ts : Go.slice string) : MovieDetails :=
  {| Name := Name m; SlugName := SlugName m; Code := Code m; City := City m;
     CityCode := CityCode m; Date := Date m; Found := Found m; Theatres := ts |}.

(** *** The state file *)

Definition tags : list string :=
  ["name"; "slug_name"; "code"; "city"; "city_code"; "date"; "found"; "theatres"].

Definition set (tag : string) (v : value) (m : MovieDetails) : option MovieDetails :=
  if String.eqb tag "name" then
    x ← into_string (Name m) v;
    Some {| Name := x; SlugName := SlugName m; Code := Code m; City := City m;
            CityCode := CityCode m; Date := Date m; Found := Found m; Theatres := Theatres m |}
  else if String.eqb tag "slug_name" then
    x ← into_string (SlugName m) v;
    Some {| Name := Name m; SlugName := x; Code := Code m; City := City m;
            CityCode := CityCode m; Date := Date m; Found := Found m; Theatres := Theatres m |}
  else if String.eqb tag "code" then
    x ← into_string (Code m) v;
    Some {| Name := Name m; SlugName := SlugName m; Code := x; City := City m;
            CityCode := CityCode m; Date := Date m; Found := Found m; Theatres := Theatres m |}
  else if String.eqb tag "city" then
    x ← into_string (City m) v;
    Some {| Name := Name m; SlugName := SlugName m; Code := Code m; City := x;
            CityCode := CityCode m; Date := Date m; Found := Found m; Theatres := Theatres m |}
  else if String.eqb tag "city_code" then
    x ← into_string (CityCode m) v;
    Some {| Name := Name m; SlugName := SlugName m; Code := Code m; City := City m;
            CityCode := x; Date := Date m; Found := Found m; Theatres := Theatres m |}
  else if String.eqb tag "date" then
    x ← into_string (Date m) v;
    Some {| Name := Name m; SlugName := SlugName m; Code := Code m; City := City m;
            CityCode := CityCode m; Date := x; Found := Found m; Theatres := Theatres m |}
  else if String.eqb tag "found" then
    x ← into_bool (Found m) v;
    Some {| Name := Name m; SlugName := SlugName m; Code := Code m; City := City m;
            CityCode := CityCode m; Date := Date m; Found := x; Theatres := Theatres m |}
  else if String.eqb tag "theatres" then
    x ← into_strings (Theatres m) v;
    Some (setTheatres m x)
  else Some m.

Definition Unmarshal (e : Env) (v : value) : option (Go.slice MovieDetails) :=
  into_structs (foldName e) tags set zero None v.

Definition of_struct (m : MovieDetails) : value :=
  JObject [("name", JString (Name m));
           ("slug_name", JString (SlugName m));
           ("code", JString (Code m));
           ("city", JString (City m));
           ("city_code", JString (CityCode m));
           ("date", JString (Date m));
           ("found", JBool (Found m));
           ("theatres", of_strings (Theatres m))].

Definition MarshalIndent (moviesList : Go.slice MovieDetails) : value :=
  of_structs of_struct moviesList.

(** [loadMoviesFromJSON]: [None] is the error return (file unreadable
    or not decodable into [[]MovieDetails]). *)
Definition loadMoviesFromJSON (e : Env) (fs : FS) (filename : string)
  : option (Go.slice MovieDetails) :=
  match fs filename with
  | None => None
  | Some (Malformed _) => None
  | Some (Doc v) => Unmarshal e v
  end.

(** [saveMoviesToJSON]: marshalling this type cannot fail; the error,
    if any, is that of [os.WriteFile], and the file then holds what the
    world says a failed write leaves behind. *)
Definition saveMoviesToJSON (e : Env) (fs : FS) (filename : string)
    (moviesList : Go.slice MovieDetails) : error * FS :=
  let jsonData := Doc (MarshalIndent moviesList) in
  match writeFile e filename jsonData with
  | None => (None, writeFS fs filename jsonData)
  | Some err =>
      (Errorf "error writing file %s: %v" [Go.Str filename; Go.Str err],
       fun f => if String.eqb f filename then leftBehind e filename (fs filename) jsonData
                else fs f)
  end.

(** *** The loop body of [main], cut at its stages *)

Definition bookingURL (m : MovieDetails) : string :=
  Go.Sprintf "https://in.bookmyshow.com/movies/%s/%s/buytickets/%s/%s"
    [Go.Str (City m); Go.Str (SlugName m); Go.Str (Code m); Go.Str (Date m)].

(** One iteration of the extraction loop: both lookup errors are
    dropped; [Text()] is then called on the name element, which is nil
    when its lookup failed (a nil dereference, hence a panic); an
    error of [Text()] itself is dropped and leaves the empty name;
    a failed [Elements] leaves a nil list, of length 0. *)
Definition theatreDetail (theatreEl : Element) : option Theatre.TheatreDetails :=
  theatreNameDiv ← nameDiv theatreEl;
  let theatreName := default "" theatreNameDiv in
  let theatreShowsEl := default 0%nat (shows theatreEl) in
  Some {| Theatre.Name := theatreName; Theatre.ShowCount := Z.of_nat theatreShowsEl |}.

(** [theatreDetails] as built from [theatreElements]. *)
Definition theatreDetails (theatreElements : list Element)
  : option (list Theatre.TheatreDetails) :=
  mapM theatreDetail theatreElements.

(** One iteration of the loop over [theatreDetails]: the record and
    [newTheatres] as they stand after it. *)
Definition reconcile1 (acc : MovieDetails * list Theatre.TheatreDetails)
    (theatre : Theatre.TheatreDetails) : MovieDetails * list Theatre.TheatreDetails :=
  let (m, newTheatres) := acc in
  if String.eqb (Theatre.Name theatre) "" then acc
  else if negb (slices.Contains (Theatres m) (Theatre.Name theatre)) then
    (setTheatres m (Go.append (Theatres m) (Theatre.Name theatre)),
     newTheatres ++ [theatre])
  else acc.

(** The loop that computes [newTheatres] and extends
    [moviesList[i].Theatres]. *)
Definition reconcile (m : MovieDetails) (theatreDetails : list Theatre.TheatreDetails)
  : MovieDetails * list Theatre.TheatreDetails :=
  fold_left reconcile1 theatreDetails (m, []).

Definition notificationMsg (m : MovieDetails) (formattedDate : string)
    (theatre : Theatre.TheatreDetails) : string :=
  Go.Sprintf ("🎬 *New Show Added!*" +:+ Go.nl +:+ Go.nl +:+
              "🎥 Movie: *%s*" +:+ Go.nl +:+
              "📅 Date: *%s*" +:+ Go.nl +:+
              "🏟️ Theatre: *%s*" +:+ Go.nl +:+
              "Shows: *%d*")
    [Go.Str (Name m); Go.Str formattedDate;
     Go.Str (Theatre.Name theatre); Go.Int (Theatre.ShowCount theatre)].

(** The [if len(newTheatres) > 0] block: the date is formatted once,
    then one message is sent per new theatre; a send error is only
    logged. *)
Definition notify (e : Env) (m : MovieDetails) (bookingURL : string)
    (newTheatres : list Theatre.TheatreDetails) : M (State MovieDetails) unit :=
  if 0 <? Z.of_nat (length newTheatres) then
    (formattedDate <- orPanic (formattedDate (Date m)) ;;
     forEach newTheatres (fun theatre =>
       err <- sendTelegramNotification e (telegramChatID e)
                (notificationMsg m formattedDate theatre) "Markdown"
                (bookingKeyboard bookingURL) ;;
       skip))%go
  else skip.

(** The body of [for i := range moviesList]. *)
Definition processMovie (e : Env) (i : nat) : M (State MovieDetails) unit :=
  (m <- movieAt i ;;
   if Found m then skip
   else
     let bookingURL := bookingURL m in
     match browse e i bookingURL with
     | ConnectFailed => fatal
     | PageFailed => panic
     | NoContainer => skip
     | NoElements => skip
     | Listed theatreElements =>
         theatreDetails <- orPanic (theatreDetails theatreElements) ;;
         let (m', newTheatres) := reconcile m theatreDetails in
         setMovieAt i m' ;;;
         notify e m' bookingURL newTheatres
     end)%go.

Definition loop (e : Env) : M (State MovieDetails) unit :=
  (st <- get ;;
   forEach (seq 0 (length (Go.elems (moviesList st)))) (processMovie e))%go.

Definition main (e : Env) (fs : FS) : Run MovieDetails :=
  match loadMoviesFromJSON e fs moviesFilename with
  | None => {| exit := Exited; files := fs; posted := []; memory := None |}
  | Some loaded =>
      match loop e {| moviesList := loaded; calls := [] |} with
      | (Ok _, st) =>
          let (err, fs') := saveMoviesToJSON e fs moviesFilename (moviesList st) in
          {| exit := Completed err; files := fs'; posted := calls st;
             memory := moviesList st |}
      | (Panic, st) =>
          {| exit := Recovered; files := fs; posted := calls st;
             memory := moviesList st |}
      | (Fatal, st) =>
          {| exit := Exited; files := fs; posted := calls st;
             memory := moviesList st |}
      end
  end.

End Incremental.

(** ** The first-availability watcher *)

Module FirstAvailability.

Record MovieDetails : Type := {
  Name : string;
  SlugName : string;
  Code : string;
  City : string;
  CityCode : string;
  Date : string;
  Found : bool
}.

Definition zero : MovieDetails :=
  {| Name := ""; SlugName := ""; Code := ""; City := ""; CityCode := "";
     Date := ""; Found := false |}.

(** [m.Found = b] *)
Definition setFound (m : MovieDetails) (b : bool) : MovieDetails :=
  {| Name := Name m; SlugName := SlugName m; Code := Code m; City := City m;
     CityCode := CityCode m; Date := Date m; Found := b |}.

(** *** The state file *)

Definition tags : list string :=
  ["name"; "slug_name"; "code"; "city"; "city_code"; "date"; "found"].

Definition set (tag : string) (v : value) (m : MovieDetails) : option MovieDetails :=
  if String.eqb tag "name" then
    x ← into_string (Name m) v;
    Some {| Name := x; SlugName := SlugName m; Code := Code m; City := City m;
            CityCode := CityCode m; Date := Date m; Found := Found m |}
  else if String.eqb tag "slug_name" then
    x ← into_string (SlugName m) v;
    Some {| Name := Name m; SlugName := x; Code := Code m; City := City m;
            CityCode := CityCode m; Date := Date m; Found := Found m |}
  else if String.eqb tag "code" then
    x ← into_string (Code m) v;
    Some {| Name := Name m; SlugName := SlugName m; Code := x; City := City m;
            CityCode := CityCode m; Date := Date m; Found := Found m |}
  else if String.eqb tag "city" then
    x ← into_string (City m) v;
    Some {| Name := Name m; SlugName := SlugName m; Code := Code m; City := x;
            CityCode := CityCode m; Date := Date m; Found := Found m |}
  else if String.eqb tag "city_code" then
    x ← into_string (CityCode m) v;
    Some {| Name := Name m; SlugName := SlugName m; Code := Code m; City := City m;
            CityCode := x; Date := Date m; Found := Found m |}
  else if String.eqb tag "date" then
    x ← into_string (Date m) v;
    Some {| Name := Name m; SlugName := SlugName m; Code := Code m; City := City m;
            CityCode := CityCode m; Date := x; Found := Found m |}
  else if String.eqb tag "found" then
    x ← into_bool (Found m) v;
    Some (setFound m x)
  else Some m.

Definition Unmarshal (e : Env) (v : value) : option (Go.slice MovieDetails) :=
  into_structs (foldName e) tags set zero None v.

Definition of_struct (m : MovieDetails) : value :=
  JObject [("name", JString (Name m));
           ("slug_name", JString (SlugName m));
           ("code", JString (Code m));
           ("city", JString (City m));
           ("city_code", JString (CityCode m));
           ("date", JString (Date m));
           ("found", JBool (Found m))].

Definition MarshalIndent (moviesList : Go.slice MovieDetails) : value :=
  of_structs of_struct moviesList.

Definition loadMoviesFromJSON (e : Env) (fs : FS) (filename : string)
  : option (Go.slice MovieDetails) :=
  match fs filename with
  | None => None
  | Some (Malformed _) => None
  | Some (Doc v) => Unmarshal e v
  end.

Definition saveMoviesToJSON (e : Env) (fs : FS) (filename : string)
    (moviesList : Go.slice MovieDetails) : error * FS :=
  let jsonData := Doc (MarshalIndent moviesList) in
  match writeFile e filename jsonData with
  | None => (None, writeFS fs filename jsonData)
  | Some err =>
      (Errorf "error writing file %s: %v" [Go.Str filename; Go.Str err],
       fun f => if String.eqb f filename then leftBehind e filename (fs filename) jsonData
                else fs f)
  end.

(** *** The loop body of [main] *)

Definition bookingURL (m : MovieDetails) : string :=
  Go.Sprintf "https://in.bookmyshow.com/buytickets/%s-%s/movie-%s-%s-MT/%s"
    [Go.Str (SlugName m); Go.Str (City m); Go.Str (CityCode m); Go.Str (Code m);
     Go.Str (Date m)].

Definition notificationMsg (e : Env) (m : MovieDetails) (formattedDate : string)
    (theatres : Z) : string :=
  Go.Sprintf ("🎬 *ALERT: Bookings Started!*" +:+ Go.nl +:+ Go.nl +:+
              "🎥 Movie: *%s*" +:+ Go.nl +:+
              "📅 Date: *%s*" +:+ Go.nl +:+
              "🏟️ Found %d theatres in *%s*")
    [Go.Str (Name m); Go.Str formattedDate; Go.Int theatres; Go.Str (Title e (City m))].

(** The test [len(theatreElements) > 0] and the assignment
    [moviesList[i].Found = true] under it: the record as it stands
    after them and, when the listing is not empty, the number of
    theatres the alert is about. *)
Definition reconcile (m : MovieDetails) (theatreElements : list Element)
  : MovieDetails * option Z :=
  if 0 <? Z.of_nat (length theatreElements)
  then (setFound m true, Some (Z.of_nat (length theatreElements)))
  else (m, None).

(** The rest of the block: the date is formatted, then the two alerts
    go out; their errors are only logged. *)
Definition notify (e : Env) (m : MovieDetails) (bookingURL : string)
    (theatres : Z) : M (State MovieDetails) unit :=
  (formattedDate <- orPanic (formattedDate (Date m)) ;;
   err <- sendTelegramNotification e (telegramChatID e)
            (notificationMsg e m formattedDate theatres)
            "Markdown" (bookingKeyboard bookingURL) ;;
   err <- sendIFTTTVoipCall e (Name m) ;;
   skip)%go.

(** The body of [for i := range moviesList]. *)
Definition processMovie (e : Env) (i : nat) : M (State MovieDetails) unit :=
  (m <- movieAt i ;;
   if Found m then skip
   else
     let bookingURL := bookingURL m in
     match browse e i bookingURL with
     | ConnectFailed => fatal
     | PageFailed => panic
     | NoContainer => skip
     | NoElements => skip
     | Listed theatreElements =>
         match reconcile m theatreElements with
         | (m', Some theatres) =>
             setMovieAt i m' ;;;
             notify e m' bookingURL theatres
         | (_, None) => skip
         end
     end)%go.

Definition loop (e : Env) : M (State MovieDetails) unit :=
  (st <- get ;;
   forEach (seq 0 (length (Go.elems (moviesList st)))) (processMovie e))%go.

Definition main (e : Env) (fs : FS) : Run MovieDetails :=
  match loadMoviesFromJSON e fs moviesFilename with
  | None => {| exit := Exited; files := fs; posted := []; memory := None |}
  | Some loaded =>
      match loop e {| moviesList := loaded; calls := [] |} with
      | (Ok _, st) =>
          let (err, fs') := saveMoviesToJSON e fs moviesFilename (moviesList st) in
          {| exit := Completed err; files := fs'; posted := calls st;
             memory := moviesList st |}
      | (Panic, st) =>
          {| exit := Recovered; files := fs; posted := calls st;
             memory := moviesList st |}
      | (Fatal, st) =>
          {| exit := Exited; files := fs; posted := calls st;
             memory := moviesList st |}
      end
  end.

End FirstAvailability.

(** ** Sample worlds used by the examples below *)

Definition asciiLower (c : ascii) : ascii :=
  let n := nat_of_ascii c in
  if ((65 <=? n)%nat && (n <=? 90)%nat)%bool then ascii_of_nat (n + 32) else c.

Fixpoint lower (s : string) : string :=
  match s with
  | EmptyString => EmptyString
  | String c rest => String (asciiLower c) (lower rest)
  end.

(** A world in which every page shows [v], Telegram answers [r] and
    every write succeeds iff [w] (a failed one leaves the file as it
    was). *)
Definition world (v : nat -> Visit) (r : Response) (w : bool) : Env :=
  {| telegramBotToken := "TOKEN";
     telegramChatID := "@channel";
     iftttWebhookAPI := "https://maker.ifttt.com/trigger";
     foldName := lower;
     Title := fun s => s;
     browse := fun i _ => v i;
     httpPost := fun _ _ _ => r;
     writeFile := fun _ _ => if w then None else Some "permission denied";
     leftBehind := fun _ old _ => old |}.

Definition delivered : Response :=
  Body (Doc (JObject [("ok", JBool true)])).

Definition refused : Response :=
  Body (Doc (JObject [("ok", JBool false); ("description", JString "chat not found")])).

Definition theatreX : Incremental.MovieDetails :=
  {| Incremental.Name := "L2: Empuraan"; Incremental.SlugName := "l2-empuraan";
     Incremental.Code := "ET00305698"; Incremental.City := "kochi";
     Incremental.CityCode := "koch"; Incremental.Date := "20250327";
     Incremental.Found := false; Incremental.Theatres := Some ["Theatre X"] |}.

Definition unsettled : FirstAvailability.MovieDetails :=
  {| FirstAvailability.Name := "L2: Empuraan"; FirstAvailability.SlugName := "l2-empuraan";
     FirstAvailability.Code := "ET00305698"; FirstAvailability.City := "kochi";
     FirstAvailability.CityCode := "koch"; FirstAvailability.Date := "20250327";
     FirstAvailability.Found := false |}.

Definition seen (name : string) (n : Z) : Theatre.TheatreDetails :=
  {| Theatre.Name := name; Theatre.ShowCount := n |}.

Definition atStart {T} (l : list T) : State T :=
  {| moviesList := Some l; calls := [] |}.

(** A file system holding only the state file, with document [v]. *)
Definition stateFile (v : value) : FS :=
  fun f => if String.eqb f moviesFilename then Some (Doc v) else None.

Definition item (name : string) (n : nat) : Element :=
  {| nameDiv := Some (Some name); shows := Some n |}.

(** ** Notions used in the statements *)


(** [after] holds the same targets as [before], each with a [Theatres]
    list that extends the one it had. *)
Definition grows (before after : list Incremental.MovieDetails) : Prop :=
  Forall2 (fun m m' =>
             Go.elems (Incremental.Theatres m) `prefix_of` Go.elems (Incremental.Theatres m'))
          before after.

(** The record of the Telegram call made for one new theatre. *)
Definition theatreAlert (e : Env) (m : Incremental.MovieDetails) (formattedDate : string)
    (theatre : Theatre.TheatreDetails) : string * value :=
  (apiURL e,
   telegramPayload (telegramChatID e)
     (Incremental.notificationMsg m formattedDate theatre) "Markdown"
     (bookingKeyboard (Incremental.bookingURL m))).

(** The two calls made for a target whose bookings opened: the
    Telegram alert reporting [theatres] theatres, then the IFTTT call. *)
Definition summaryAlert (e : Env) (m : FirstAvailability.MovieDetails)
    (formattedDate : string) (theatres : Z) : list (string * value) :=
  [ (apiURL e,
     telegramPayload (telegramChatID e)
       (FirstAvailability.notificationMsg e m formattedDate theatres) "Markdown"
       (bookingKeyboard (FirstAvailability.bookingURL m)));
    (iftttWebhookAPI e, JObject [("value1", JString (FirstAvailability.Name m))]) ].

(** The two per-target failures the loop answers with [continue]. *)
Definition skipped (e : Env) (i : nat) (m : Incremental.MovieDetails) : Prop :=
  browse e i (Incremental.bookingURL m) = NoContainer \/
  browse e i (Incremental.bookingURL m) = NoElements.

(** A target whose processing cannot fault: it is settled, or its page
    fails in one of the two skipped ways, or it is listed with every
    name element present and the target's date has its 8 bytes. *)
Definition calm (e : Env) (i : nat) (m : Incremental.MovieDetails) : Prop :=
  Incremental.Found m = true \/
  match browse e i (Incremental.bookingURL m) with
  | ConnectFailed | PageFailed => False
  | NoContainer | NoElements => True
  | Listed theatreElements =>
      Forall (fun theatreEl => nameDiv theatreEl <> None) theatreElements /\
      (8 <= String.length (Incremental.Date m))%nat
  end.

(** The state of the loop before iteration [k]: the targets not yet
    visited are as loaded, and so are the skipped ones. *)
Definition untouched (e : Env) (loaded : list Incremental.MovieDetails) (k : nat)
    (st : State Incremental.MovieDetails) : Prop :=
  (forall i, (k <= i)%nat -> Go.elems (moviesList st) !! i = loaded !! i) /\
  (forall i m, (i < k)%nat -> loaded !! i = Some m -> skipped e i m ->
     Go.elems (moviesList st) !! i = Some m).

(** The requests a state has recorded, without the answers. *)
Definition requests {T} (st : State T) : list (string * value) :=
  (fun ev => (url ev, payload ev)) <$> calls st.

(** ** Start-up

    [init] runs before [main]: it loads [.env], reads the credentials
    from the environment, opens the log file and makes sure a browser is
    available; each failure is a [logger.Fatal]. *)

(** What [init] consults: the result of [godotenv.Load()], the
    environment as [os.Getenv] sees it after the load (the empty string
    for an unset variable), the result of opening [bms.log] and that of
    [launcher.NewBrowser().Get()]. *)
Record OS : Type := {
  dotenv : error;
  Getenv : string -> string;
  OpenFile : string -> error;
  browserGet : error
}.

(** The package-level variables [init] assigns. *)
Record Globals : Type := {
  botToken : string;
  chatID : string;
  webhook : string
}.

(** [init] of the incremental watcher (it has no webhook variable). *)
Definition incrementalInit (os : OS) : outcome Globals :=
  match dotenv os with
  | Some _ => Fatal
  | None =>
      let telegramBotToken := Getenv os "TELEGRAM_BOT_TOKEN" in
      if String.eqb telegramBotToken "" then Fatal
      else
        let telegramChatID := Getenv os "TELEGRAM_CHAT_ID" in
        if String.eqb telegramChatID "" then Fatal
        else
          match OpenFile os logFilename with
          | Some _ => Fatal
          | None =>
              match browserGet os with
              | Some _ => Fatal
              | None => Ok {| botToken := telegramBotToken; chatID := telegramChatID;
                              webhook := "" |}
              end
          end
  end.

(** [init] of the first-availability watcher. *)
Definition firstInit (os : OS) : outcome Globals :=
  match dotenv os with
  | Some _ => Fatal
  | None =>
      let telegramBotToken := Getenv os "TELEGRAM_BOT_TOKEN" in
      if String.eqb telegramBotToken "" then Fatal
      else
        let telegramChatID := Getenv os "TELEGRAM_CHAT_ID" in
        if String.eqb telegramChatID "" then Fatal
        else
          let iftttWebhookAPI := Getenv os "IFTTT_WEBHOOK_API" in
          if String.eqb iftttWebhookAPI "" then Fatal
          else
            match OpenFile os logFilename with
            | Some _ => Fatal
            | None =>
                match browserGet os with
                | Some _ => Fatal
                | None => Ok {| botToken := telegramBotToken; chatID := telegramChatID;
                                webhook := iftttWebhookAPI |}
                end
            end
  end.

(** The world as [main] sees it once [init] has set the globals. *)
Definition withGlobals (g : Globals) (e : Env) : Env :=
  {| telegramBotToken := botToken g;
     telegramChatID := chatID g;
     iftttWebhookAPI := webhook g;
     foldName := foldName e;
     Title := Title e;
     browse := browse e;
     httpPost := httpPost e;
     writeFile := writeFile e;
     leftBehind := leftBehind e |}.

(** The process: [init], then [main]; after a fatal [init] no call
    has been made and the state file is as it was. *)
Definition incrementalProgram (os : OS) (e : Env) (fs : FS) : Run Incremental.MovieDetails :=
  match incrementalInit os with
  | Ok g => Incremental.main (withGlobals g e) fs
  | _ => {| exit := Exited; files := fs; posted := []; memory := None |}
  end.

Definition firstProgram (os : OS) (e : Env) (fs : FS) : Run FirstAvailability.MovieDetails :=
  match firstInit os with
  | Ok g => FirstAvailability.main (withGlobals g e) fs
  | _ => {| exit := Exited; files := fs; posted := []; memory := None |}
  end.

(** A machine whose environment holds the three variables with the
    given values and on which everything else [init] needs works. *)
Definition machine (token chat hook : string) : OS :=
  {| dotenv := None;
     Getenv := fun key =>
       if String.eqb key "TELEGRAM_BOT_TOKEN" then token
       else if String.eqb key "TELEGRAM_CHAT_ID" then chat
       else if String.eqb key "IFTTT_WEBHOOK_API" then hook
       else "";
     OpenFile := fun _ => None;
     browserGet := None |}.

(** ** Notions used in the further properties *)

(** The requests a run made, without the answers. *)
Definition sent {T} (r : Run T) : list (string * value) :=
  (fun ev => (url ev, payload ev)) <$> posted r.

(** A request that is a Markdown message to the configured chat, sent
    to the bot's [sendMessage] endpoint with one row of one button. *)
Definition toTelegram (e : Env) (r : string * value) : Prop :=
  r.1 = apiURL e /\
  exists message bookingURL,
    r.2 = telegramPayload (telegramChatID e) message "Markdown" (bookingKeyboard bookingURL).

(** A request to the IFTTT webhook carrying one value. *)
Definition toIFTTT (e : Env) (r : string * value) : Prop :=
  r.1 = iftttWebhookAPI e /\ exists value, r.2 = JObject [("value1", JString value)].

(** [later] is [earlier] followed by requests that all satisfy [P]. *)
Definition extendsBy {T} (P : string * value -> Prop) (earlier later : State T) : Prop :=
  exists extra, requests later = requests earlier ++ extra /\ Forall P extra.

(** A Telegram request and the IFTTT request that follows it. *)
Definition alertPair (e : Env) (p : (string * value) * (string * value)) : Prop :=
  toTelegram e p.1 /\ toIFTTT e p.2.

Definition inPairs (pairs : list ((string * value) * (string * value)))
  : list (string * value) :=
  mjoin ((fun p => [p.1; p.2]) <$> pairs).

(** [later] is [earlier] followed by alert pairs. *)
Definition extendsByPairs (e : Env) (earlier later : State FirstAvailability.MovieDetails)
  : Prop :=
  exists pairs,
    requests later = requests earlier ++ inPairs pairs /\ Forall (alertPair e) pairs.

(** The observation the extraction loop builds for an item whose name
    element was found. *)
Definition observed (theatreEl : Element) : Theatre.TheatreDetails :=
  {| Theatre.Name := default "" (default None (nameDiv theatreEl));
     Theatre.ShowCount := Z.of_nat (default 0%nat (shows theatreEl)) |}.

(** [m'] is [m] with, at most, another [Theatres] list. *)
Definition sameButTheatres (m m' : Incremental.MovieDetails) : Prop :=
  m' = Incremental.setTheatres m (Incremental.Theatres m').

(** [m'] is [m], or [m] with [Found] switched from false to true. *)
Definition settledOrSame (m m' : FirstAvailability.MovieDetails) : Prop :=
  m' = m \/
  (FirstAvailability.Found m = false /\ m' = FirstAvailability.setFound m true).



(** ** Notions used in the statements about faults *)


(** A target like [theatreX] that knows no theatre yet and whose date
    has six bytes only. *)
Definition sixByteDate : Incremental.MovieDetails :=
  {| Incremental.Name := "L2: Empuraan"; Incremental.SlugName := "l2-empuraan";
     Incremental.Code := "ET00305698"; Incremental.City := "kochi";
     Incremental.CityCode := "koch"; Incremental.Date := "250327";
     Incremental.Found := false; Incremental.Theatres := None |}.

Example formattedDate_ex : formattedDate "20250319" = Some "19-03-2025".
Proof. reflexivity. Qed.

Example scenarioB_run :
  let r := Incremental.main
             (world (fun _ => Listed [item "Theatre X" 5; item "Theatre Y" 1]) refused true)
             (fun _ => Some (Doc (Incremental.MarshalIndent (Some [theatreX])))) in
  exit r = Completed None /\
  Incremental.Theatres <$> Go.elems (memory r) = [Some ["Theatre X"; "Theatre Y"]] /\
  length (posted r) = 1%nat.
Proof. vm_compute. auto. Qed.

(** ** Basic facts about the effects *)

Section Effects.
Context {T : Type}.
Implicit Types (e : Env) (st : State T).

Lemma sendTelegramNotification_spec e chatID message parseMode keyboard st :
  sendTelegramNotification e chatID message parseMode keyboard st =
  (Ok (telegramError e (httpPost e (calls st) (apiURL e)
                          (telegramPayload chatID message parseMode keyboard))),
   {| moviesList := moviesList st;
      calls := calls st ++
               [ {| url := apiURL e;
                    payload := telegramPayload chatID message parseMode keyboard;
                    response := httpPost e (calls st) (apiURL e)
                                  (telegramPayload chatID message parseMode keyboard) |} ] |}).
Proof. reflexivity. Qed.

Lemma sendIFTTTVoipCall_spec e value st :
  exists err,
    sendIFTTTVoipCall e value st =
    (Ok err,
     {| moviesList := moviesList st;
        calls := calls st ++
                 [ {| url := iftttWebhookAPI e;
                      payload := JObject [("value1", JString value)];
                      response := httpPost e (calls st) (iftttWebhookAPI e)
                                    (JObject [("value1", JString value)]) |} ] |}).
Proof.
  unfold sendIFTTTVoipCall, bind, Post.
  destruct (httpPost e (calls st) (iftttWebhookAPI e) _); eexists; reflexivity.
Qed.
End Effects.

(** ** The date *)

Lemma substr_in_range s lo hi :
  (lo <= hi)%nat -> (hi <= String.length s)%nat ->
  Go.substr s lo hi = Some (substring lo (hi - lo) s).
Proof.
  intros H1 H2. unfold Go.substr.
  apply Nat.leb_le in H1, H2. rewrite H1, H2. reflexivity.
Qed.

Lemma substr_out_of_range s lo hi :
  (String.length s < hi)%nat -> Go.substr s lo hi = None.
Proof.
  intros H. unfold Go.substr.
  apply Nat.leb_gt in H. rewrite H, andb_false_r. reflexivity.
Qed.

Lemma append_empty_r (s : string) : s +:+ "" = s.
Proof.
  induction s as [|c s IH]; [reflexivity|].
  change (String c (s +:+ "") = String c s). by rewrite IH.
Qed.

Lemma Sprintf_date (dd mm yyyy : string) :
  Go.Sprintf "%s-%s-%s" [Go.Str dd; Go.Str mm; Go.Str yyyy] =
  dd +:+ "-" +:+ mm +:+ "-" +:+ yyyy.
Proof. cbn. by rewrite append_empty_r. Qed.

Lemma formattedDate_defined showDate :
  (8 <= String.length showDate)%nat ->
  formattedDate showDate =
  Some (substring 6 2 showDate +:+ "-" +:+ substring 4 2 showDate +:+ "-" +:+
        substring 0 4 showDate).
Proof.
  intros H. unfold formattedDate.
  rewrite (substr_in_range showDate 6 8), (substr_in_range showDate 4 6),
    (substr_in_range showDate 0 4) by lia.
  cbn [mbind option_bind].
  rewrite Sprintf_date. reflexivity.
Qed.

Lemma formattedDate_panics showDate :
  (String.length showDate < 8)%nat -> formattedDate showDate = None.
Proof.
  intros H. unfold formattedDate.
  rewrite (substr_out_of_range showDate 6 8) by lia. reflexivity.
Qed.

(** ** The novelty loop of the incremental watcher *)

Lemma Contains_spec (s : Go.slice string) (v : string) :
  slices.Contains s v = true <-> v ∈ Go.elems s.
Proof.
  unfold slices.Contains. rewrite existsb_exists, list_elem_of_In. split.
  - intros (x & Hx & Heq). apply String.eqb_eq in Heq. by subst.
  - intros H. exists v. split; [done | apply String.eqb_refl].
Qed.

Lemma Contains_false (s : Go.slice string) (v : string) :
  slices.Contains s v = false <-> v ∉ Go.elems s.
Proof.
  rewrite <- Contains_spec. destruct (slices.Contains s v); split; congruence.
Qed.

Lemma elems_append {A} (s : Go.slice A) (x : A) :
  Go.elems (Go.append s x) = Go.elems s ++ [x].
Proof. reflexivity. Qed.

Lemma setTheatres_same (m : Incremental.MovieDetails) :
  Incremental.setTheatres m (Incremental.Theatres m) = m.
Proof. by destruct m. Qed.

Lemma reconcile_fold (obs : list Theatre.TheatreDetails) :
  forall (m : Incremental.MovieDetails) (acc : list Theatre.TheatreDetails),
  exists added,
    let r := fold_left Incremental.reconcile1 obs (m, acc) in
    r.2 = acc ++ added /\
    r.1 = Incremental.setTheatres m (Incremental.Theatres r.1) /\
    Go.elems (Incremental.Theatres r.1) =
      Go.elems (Incremental.Theatres m) ++ (Theatre.Name <$> added) /\
    (added = [] -> r.1 = m) /\
    added `sublist_of` obs /\
    NoDup (Theatre.Name <$> added) /\
    (forall t, t ∈ added ->
       Theatre.Name t <> "" /\ Theatre.Name t ∉ Go.elems (Incremental.Theatres m)) /\
    (forall t, t ∈ obs -> Theatre.Name t <> "" ->
       Theatre.Name t ∈ Go.elems (Incremental.Theatres r.1)).
Proof.
  induction obs as [|t obs IH]; intros m acc.
  - exists []. cbn. rewrite !app_nil_r, setTheatres_same.
    split_and!; auto using NoDup_nil_2.
    + intros t Hin. by apply elem_of_nil in Hin.
    + intros t Hin. by apply elem_of_nil in Hin.
  - cbn [fold_left].
    pose proof (eq_refl : Incremental.reconcile1 (m, acc) t =
      if String.eqb (Theatre.Name t) "" then (m, acc)
      else if negb (slices.Contains (Incremental.Theatres m) (Theatre.Name t))
           then (Incremental.setTheatres m
                   (Go.append (Incremental.Theatres m) (Theatre.Name t)), acc ++ [t])
           else (m, acc)) as Hstep.
    destruct (String.eqb_spec (Theatre.Name t) "") as [Hempty|Hname]; rewrite Hstep.
    { destruct (IH m acc) as (added & H2 & Hset & Hel & Hnil & Hsub & Hnd & Hnew & Hall).
      exists added. cbn zeta in *. split_and!; auto.
      - by apply sublist_cons.
      - intros t' Ht' Hne. apply elem_of_cons in Ht' as [->|Ht']; [done | by apply Hall]. }
    clear Hstep.
    destruct (slices.Contains (Incremental.Theatres m) (Theatre.Name t)) eqn:Hc; cbn [negb].
    { destruct (IH m acc) as (added & H2 & Hset & Hel & Hnil & Hsub & Hnd & Hnew & Hall).
      exists added. cbn zeta in *. split_and!; auto.
      - by apply sublist_cons.
      - intros t' Ht' Hne. apply elem_of_cons in Ht' as [->|Ht']; [| by apply Hall].
        rewrite Hel. apply elem_of_app. left. by apply Contains_spec. }
    apply Contains_false in Hc.
    destruct (IH (Incremental.setTheatres m
                    (Go.append (Incremental.Theatres m) (Theatre.Name t)))
                 (acc ++ [t]))
      as (added & H2 & Hset & Hel & Hnil & Hsub & Hnd & Hnew & Hall).
    exists (t :: added). cbn zeta in *. cbn [Incremental.Theatres Incremental.setTheatres] in *.
    rewrite elems_append in *.
    split_and!.
    + rewrite H2, <- app_assoc. reflexivity.
    + rewrite Hset at 1. reflexivity.
    + rewrite Hel, <- app_assoc. reflexivity.
    + discriminate.
    + by apply sublist_skip.
    + cbn. apply NoDup_cons. split; [|done].
      intros Hin. apply list_elem_of_fmap in Hin as (t' & Heq & Ht').
      destruct (Hnew t' Ht') as [_ Hnot]. apply Hnot. rewrite <- Heq.
      apply elem_of_app. right. by apply list_elem_of_singleton.
    + intros t' Ht'. apply elem_of_cons in Ht' as [->|Ht'].
      * by split.
      * destruct (Hnew t' Ht') as [Hne Hnot]. split; [done|].
        intros Hin. apply Hnot. apply elem_of_app. by left.
    + intros t' Ht' Hne. apply elem_of_cons in Ht' as [->|Ht']; [| by apply Hall].
      rewrite Hel. apply elem_of_app. left. apply elem_of_app. right.
      by apply list_elem_of_singleton.
Qed.

Lemma reconcile_spec (m : Incremental.MovieDetails) (obs : list Theatre.TheatreDetails) :
  let r := Incremental.reconcile m obs in
  r.1 = Incremental.setTheatres m (Incremental.Theatres r.1) /\
  Go.elems (Incremental.Theatres r.1) =
    Go.elems (Incremental.Theatres m) ++ (Theatre.Name <$> r.2) /\
  (r.2 = [] -> r.1 = m) /\
  r.2 `sublist_of` obs /\
  NoDup (Theatre.Name <$> r.2) /\
  (forall t, t ∈ r.2 ->
     Theatre.Name t <> "" /\ Theatre.Name t ∉ Go.elems (Incremental.Theatres m)) /\
  (forall t, t ∈ obs -> Theatre.Name t <> "" ->
     Theatre.Name t ∈ Go.elems (Incremental.Theatres r.1)).
Proof.
  unfold Incremental.reconcile.
  destruct (reconcile_fold obs m []) as (added & H2 & H). cbn zeta in *.
  rewrite app_nil_l in H2. rewrite H2. exact H.
Qed.

(** ** What one target's processing does *)

Section IncrementalSteps.
Import Incremental.
Implicit Types (e : Env) (st : State MovieDetails) (m : MovieDetails).

Lemma stored_same i m st :
  Go.elems (moviesList st) !! i = Some m -> stored i m st = st.
Proof.
  intros H. destruct st as [[l|] c]; cbn in *; [|done].
  unfold stored. cbn. by rewrite list_insert_id.
Qed.

Lemma sends_trace e m d bookingURL (newTheatres : list Theatre.TheatreDetails) :
  forall st, exists st',
    forEach newTheatres (fun theatre =>
      bind (sendTelegramNotification e (telegramChatID e)
              (notificationMsg m d theatre) "Markdown" (bookingKeyboard bookingURL))
           (fun _ => skip)) st = (Ok tt, st') /\
    moviesList st' = moviesList st /\
    requests st' = requests st ++
      ((fun theatre => (apiURL e,
          telegramPayload (telegramChatID e) (notificationMsg m d theatre) "Markdown"
            (bookingKeyboard bookingURL))) <$> newTheatres).
Proof.
  induction newTheatres as [|t news IH]; intros st.
  - exists st. cbn. by rewrite app_nil_r.
  - cbn [forEach]. unfold bind at 1. unfold bind at 1.
    rewrite sendTelegramNotification_spec. cbn [skip ret].
    match goal with |- context [forEach news _ ?s] => destruct (IH s) as (st' & Hrun & Hm & Hreq) end.
    exists st'. split; [exact Hrun|]. split; [exact Hm|].
    rewrite Hreq. unfold requests. cbn [calls]. rewrite fmap_app, <- app_assoc.
    reflexivity.
Qed.

Lemma notify_nothing e m bookingURL st : notify e m bookingURL [] st = (Ok tt, st).
Proof. reflexivity. Qed.

Lemma notify_panics e m bookingURL newTheatres st :
  newTheatres <> [] -> formattedDate (Date m) = None ->
  notify e m bookingURL newTheatres st = (Panic, st).
Proof.
  intros Hne Hd. unfold notify. destruct newTheatres as [|t l]; [done|].
  cbn [length]. replace (0 <? Z.of_nat (S (length l))) with true
    by (symmetry; apply Z.ltb_lt; lia).
  unfold bind. rewrite Hd. reflexivity.
Qed.

Lemma notify_sends e m bookingURL newTheatres d st :
  formattedDate (Date m) = Some d ->
  exists st',
    notify e m bookingURL newTheatres st = (Ok tt, st') /\
    moviesList st' = moviesList st /\
    requests st' = requests st ++
      ((fun theatre => (apiURL e,
          telegramPayload (telegramChatID e) (notificationMsg m d theatre) "Markdown"
            (bookingKeyboard bookingURL))) <$> newTheatres).
Proof.
  intros Hd. unfold notify. destruct (0 <? Z.of_nat (length newTheatres)) eqn:Hlen.
  - unfold bind at 1. rewrite Hd. cbn [orPanic ret]. apply sends_trace.
  - apply Z.ltb_ge in Hlen. destruct newTheatres; cbn in Hlen; [|lia].
    exists st. cbn. by rewrite app_nil_r.
Qed.

Lemma processMovie_missing e i st :
  Go.elems (moviesList st) !! i = None -> processMovie e i st = (Panic, st).
Proof. intros H. unfold processMovie, bind, movieAt. by rewrite H. Qed.

Lemma processMovie_found e i st m :
  Go.elems (moviesList st) !! i = Some m -> Found m = true ->
  processMovie e i st = (Ok tt, st).
Proof. intros H Hf. unfold processMovie, bind, movieAt. rewrite H. cbn. by rewrite Hf. Qed.

Lemma processMovie_visit e i st m :
  Go.elems (moviesList st) !! i = Some m -> Found m = false ->
  processMovie e i st =
  match browse e i (bookingURL m) with
  | ConnectFailed => (Fatal, st)
  | PageFailed => (Panic, st)
  | NoContainer => (Ok tt, st)
  | NoElements => (Ok tt, st)
  | Listed theatreElements =>
      match theatreDetails theatreElements with
      | None => (Panic, st)
      | Some obs =>
          notify e (reconcile m obs).1 (bookingURL m) (reconcile m obs).2
            (stored i (reconcile m obs).1 st)
      end
  end.
Proof.
  intros H Hf. unfold processMovie, bind, movieAt. rewrite H. cbn [orPanic ret]. rewrite Hf.
  destruct (browse e i (bookingURL m)); try reflexivity.
  destruct (theatreDetails theatreElements) as [obs|]; cbn [orPanic ret panic]; [|done].
  destruct (reconcile m obs) as [m' news]. reflexivity.
Qed.
End IncrementalSteps.

Section FirstAvailabilitySteps.
Import FirstAvailability.
Implicit Types (e : Env) (st : State MovieDetails) (m : MovieDetails).

Lemma alert_panics e m bookingURL theatres st :
  formattedDate (Date m) = None -> notify e m bookingURL theatres st = (Panic, st).
Proof. intros Hd. unfold notify, bind. by rewrite Hd. Qed.

Lemma alert_sends e m bookingURL d theatres st :
  formattedDate (Date m) = Some d ->
  exists st',
    notify e m bookingURL theatres st = (Ok tt, st') /\
    moviesList st' = moviesList st /\
    requests st' = requests st ++
      [ (apiURL e,
         telegramPayload (telegramChatID e) (notificationMsg e m d theatres) "Markdown"
           (bookingKeyboard bookingURL));
        (iftttWebhookAPI e, JObject [("value1", JString (Name m))]) ].
Proof.
  intros Hd. unfold notify. unfold bind at 1. rewrite Hd. cbn [orPanic ret].
  unfold bind at 1. rewrite sendTelegramNotification_spec.
  unfold bind at 1.
  match goal with |- context [sendIFTTTVoipCall e ?v ?s] =>
    destruct (sendIFTTTVoipCall_spec e v s) as [err ->] end.
  eexists. split; [reflexivity|]. split; [reflexivity|].
  unfold requests. cbn [calls]. rewrite !fmap_app, <- app_assoc. reflexivity.
Qed.

Lemma summaryAlert_setFound e m b d theatres :
  [ (apiURL e,
     telegramPayload (telegramChatID e) (notificationMsg e (setFound m b) d theatres)
       "Markdown" (bookingKeyboard (bookingURL m)));
    (iftttWebhookAPI e, JObject [("value1", JString (Name (setFound m b)))]) ]
  = summaryAlert e m d theatres.
Proof.
  unfold summaryAlert, notificationMsg, setFound. cbn [Name City]. reflexivity.
Qed.

Lemma first_processMovie_missing e i st :
  Go.elems (moviesList st) !! i = None -> processMovie e i st = (Panic, st).
Proof. intros H. unfold processMovie, bind, movieAt. by rewrite H. Qed.

Lemma first_processMovie_found e i st m :
  Go.elems (moviesList st) !! i = Some m -> Found m = true ->
  processMovie e i st = (Ok tt, st).
Proof. intros H Hf. unfold processMovie, bind, movieAt. rewrite H. cbn. by rewrite Hf. Qed.

Lemma first_processMovie_visit e i st m :
  Go.elems (moviesList st) !! i = Some m -> Found m = false ->
  processMovie e i st =
  match browse e i (bookingURL m) with
  | ConnectFailed => (Fatal, st)
  | PageFailed => (Panic, st)
  | NoContainer => (Ok tt, st)
  | NoElements => (Ok tt, st)
  | Listed [] => (Ok tt, st)
  | Listed theatreElements =>
      notify e (setFound m true) (bookingURL m) (Z.of_nat (length theatreElements))
        (stored i (setFound m true) st)
  end.
Proof.
  intros H Hf. unfold processMovie, bind, movieAt. rewrite H. cbn [orPanic ret]. rewrite Hf.
  destruct (browse e i (bookingURL m)) as [| | | |[|el els]]; reflexivity.
Qed.
End FirstAvailabilitySteps.

(** ** Per-theatre incremental mode: what reconciliation adds and emits *)

(** C1.  Reconciling a target with a list of observations appends to
    [Theatres] exactly the observation names that are non-empty and not
    yet members, changes nothing else in the record, and yields in
    [newTheatres] one entry per such name, each an observation with its
    name and show count, in extraction order; a name already in
    [Theatres] yields none.  When the date can be formatted, processing
    the target sends exactly one Telegram message per entry of
    [newTheatres], in that order, built from that theatre's name and
    show count.  With [Theatres = ["Theatre X"]] and observations
    [("Theatre X", 5), ("Theatre Y", 1)] the only entry is
    ("Theatre Y", 1) and [Theatres] becomes ["Theatre X", "Theatre Y"]. *)
Theorem incremental_reconcile_adds_and_emits_new_theatres :
  (forall (m : Incremental.MovieDetails) (obs : list Theatre.TheatreDetails),
     let r := Incremental.reconcile m obs in
     Go.elems (Incremental.Theatres r.1) =
       Go.elems (Incremental.Theatres m) ++ (Theatre.Name <$> r.2) /\
     (forall n, n ∈ Go.elems (Incremental.Theatres r.1) <->
                n ∈ Go.elems (Incremental.Theatres m) \/
                (n <> "" /\ n ∈ (Theatre.Name <$> obs))) /\
     r.1 = Incremental.setTheatres m (Incremental.Theatres r.1) /\
     r.2 `sublist_of` obs /\
     NoDup (Theatre.Name <$> r.2) /\
     (forall n, n ∈ (Theatre.Name <$> r.2) <->
                n <> "" /\ (n ∉ Go.elems (Incremental.Theatres m)) /\
                n ∈ (Theatre.Name <$> obs))) /\
  (forall e i st m theatreElements obs d,
     Go.elems (moviesList st) !! i = Some m ->
     Incremental.Found m = false ->
     browse e i (Incremental.bookingURL m) = Listed theatreElements ->
     Incremental.theatreDetails theatreElements = Some obs ->
     formattedDate (Incremental.Date m) = Some d ->
     exists st',
       Incremental.processMovie e i st = (Ok tt, st') /\
       moviesList st' = moviesList (stored i (Incremental.reconcile m obs).1 st) /\
       requests st' = requests st ++
                      (theatreAlert e m d <$> (Incremental.reconcile m obs).2)) /\
  (forall m,
     Go.elems (Incremental.Theatres m) = ["Theatre X"] ->
     Incremental.reconcile m [seen "Theatre X" 5; seen "Theatre Y" 1] =
     (Incremental.setTheatres m (Some ["Theatre X"; "Theatre Y"]), [seen "Theatre Y" 1])).
Proof.
  split_and!.
  - intros m obs r.
    destruct (reconcile_spec m obs) as (Hset & Hel & _ & Hsub & Hnd & Hnew & Hall).
    fold r in Hset, Hel, Hsub, Hnd, Hnew, Hall.
    assert (Hnames : forall n, n ∈ (Theatre.Name <$> r.2) ->
              n <> "" /\ (n ∉ Go.elems (Incremental.Theatres m)) /\
              n ∈ (Theatre.Name <$> obs)).
    { intros n Hin. apply list_elem_of_fmap in Hin as (t & -> & Ht).
      destruct (Hnew t Ht) as [Hne Hnot]. split_and!; auto.
      apply list_elem_of_fmap. exists t. split; [done|]. by eapply elem_of_sublist. }
    split_and!; auto.
    + intros n. rewrite Hel, elem_of_app. split.
      * intros [Hold|Hin]; [by left|]. right. destruct (Hnames n Hin) as (? & _ & ?). done.
      * intros [Hold|[Hne Hin]]; [by left|].
        apply list_elem_of_fmap in Hin as (t & -> & Ht).
        apply elem_of_app. rewrite <- Hel. by apply Hall.
    + intros n. split; [apply Hnames|].
      intros (Hne & Hnot & Hin). apply list_elem_of_fmap in Hin as (t & -> & Ht).
      pose proof (Hall t Ht Hne) as Hmem. rewrite Hel in Hmem.
      apply elem_of_app in Hmem as [Hold|Hin]; [done|exact Hin].
  - intros e i st m els obs d Hi Hf Hb Hx Hd.
    rewrite (processMovie_visit e i st m Hi Hf), Hb, Hx.
    destruct (reconcile_spec m obs) as (Hset & _).
    destruct (notify_sends e (Incremental.reconcile m obs).1 (Incremental.bookingURL m)
                (Incremental.reconcile m obs).2 d
                (stored i (Incremental.reconcile m obs).1 st)) as (st' & Hrun & Hm & Hreq).
    { cbn zeta in Hset. rewrite Hset. exact Hd. }
    exists st'. split; [exact Hrun|]. split; [exact Hm|]. rewrite Hreq.
    apply (f_equal (app (requests st))).
    apply list_fmap_ext. intros _ t _. unfold theatreAlert. cbn zeta in Hset.
    rewrite Hset. reflexivity.
  - intros m Hx.
    assert (HX : slices.Contains (Incremental.Theatres m) "Theatre X" = true)
      by (unfold slices.Contains; rewrite Hx; reflexivity).
    assert (HY : slices.Contains (Incremental.Theatres m) "Theatre Y" = false)
      by (unfold slices.Contains; rewrite Hx; reflexivity).
    unfold Incremental.reconcile. cbn [fold_left].
    unfold Incremental.reconcile1. cbn [Theatre.Name seen].
    change ("Theatre X" =? "")%string with false.
    change ("Theatre Y" =? "")%string with false.
    cbn iota. rewrite HX. cbn [negb]. rewrite HY. cbn [negb app].
    unfold Go.append. rewrite Hx. reflexivity.
Qed.

Lemma incremental_reconcile_adds_and_emits_new_theatres_witness :
  exists st',
    Incremental.processMovie
      (world (fun _ => Listed [item "Theatre X" 5; item "Theatre Y" 1]) refused true)
      0 (atStart [theatreX]) = (Ok tt, st') /\
    moviesList st' =
      Some [Incremental.setTheatres theatreX (Some ["Theatre X"; "Theatre Y"])] /\
    requests st' =
      [theatreAlert
         (world (fun _ => Listed [item "Theatre X" 5; item "Theatre Y" 1]) refused true)
         theatreX "27-03-2025" (seen "Theatre Y" 1)].
Proof.
  destruct incremental_reconcile_adds_and_emits_new_theatres as (_ & H & _).
  apply (H (world (fun _ => Listed [item "Theatre X" 5; item "Theatre Y" 1]) refused true)
           0%nat (atStart [theatreX]) theatreX
           [item "Theatre X" 5; item "Theatre Y" 1]
           [seen "Theatre X" 5; seen "Theatre Y" 1] "27-03-2025"); reflexivity.
Defined.

(** ** First-availability mode: one summary alert *)

Lemma elems_stored_at {T} i (m : T) (st : State T) :
  Go.elems (moviesList (stored i m st)) = <[i := m]> (Go.elems (moviesList st)).
Proof. destruct st as [[l|] c]; reflexivity. Qed.

(** C2.  For a target whose [Found] is false and a non-empty listing,
    reconciliation returns the record with [Found] set -- [Found] of the
    record it returns is true -- and one summary whose count is the
    number of theatre elements; processing the target puts that record
    at the target's place in memory and, when the date can be formatted,
    makes exactly one Telegram call, carrying that count, followed by
    the IFTTT call -- not one call per theatre. *)
Theorem first_availability_settles_and_alerts_once :
  forall e i st m theatreElements,
    Go.elems (moviesList st) !! i = Some m ->
    FirstAvailability.Found m = false ->
    browse e i (FirstAvailability.bookingURL m) = Listed theatreElements ->
    theatreElements <> [] ->
    FirstAvailability.reconcile m theatreElements =
      (FirstAvailability.setFound m true, Some (Z.of_nat (length theatreElements))) /\
    FirstAvailability.Found (FirstAvailability.reconcile m theatreElements).1 = true /\
    moviesList (FirstAvailability.processMovie e i st).2 =
      moviesList (stored i (FirstAvailability.setFound m true) st) /\
    (exists m',
       Go.elems (moviesList (FirstAvailability.processMovie e i st).2) !! i = Some m' /\
       m' = (FirstAvailability.reconcile m theatreElements).1 /\
       FirstAvailability.Found m' = true) /\
    (forall d,
       formattedDate (FirstAvailability.Date m) = Some d ->
       (FirstAvailability.processMovie e i st).1 = Ok tt /\
       requests (FirstAvailability.processMovie e i st).2 =
         requests st ++ summaryAlert e m d (Z.of_nat (length theatreElements))).
Proof.
  intros e i st m els Hi Hf Hb Hne.
  assert (Hmem : moviesList (FirstAvailability.processMovie e i st).2 =
                 moviesList (stored i (FirstAvailability.setFound m true) st)).
  { rewrite (first_processMovie_visit e i st m Hi Hf), Hb.
    destruct els as [|el els]; [done|].
    destruct (formattedDate (FirstAvailability.Date m)) as [d|] eqn:Hd.
    - destruct (alert_sends e (FirstAvailability.setFound m true)
                  (FirstAvailability.bookingURL m) d (Z.of_nat (length (el :: els)))
                  (stored i (FirstAvailability.setFound m true) st) Hd)
        as (st' & Hrun & Hm & _).
      rewrite Hrun. exact Hm.
    - rewrite alert_panics by exact Hd. reflexivity. }
  assert (Hrec : FirstAvailability.reconcile m els =
                 (FirstAvailability.setFound m true, Some (Z.of_nat (length els)))).
  { destruct els as [|el els]; [done | reflexivity]. }
  split; [exact Hrec|]. split; [rewrite Hrec; reflexivity|].
  split; [exact Hmem|]. split.
  - exists (FirstAvailability.setFound m true). split; [|split].
    + rewrite Hmem, elems_stored_at. apply list_lookup_insert_eq.
      by eapply lookup_lt_Some.
    + rewrite Hrec. reflexivity.
    + reflexivity.
  - intros d Hd. rewrite (first_processMovie_visit e i st m Hi Hf), Hb.
    destruct els as [|el els]; [done|].
    destruct (alert_sends e (FirstAvailability.setFound m true)
                (FirstAvailability.bookingURL m) d (Z.of_nat (length (el :: els)))
                (stored i (FirstAvailability.setFound m true) st) Hd)
      as (st' & Hrun & _ & Hreq).
    rewrite Hrun. split; [reflexivity|]. cbn [snd].
    rewrite Hreq, summaryAlert_setFound. reflexivity.
Qed.

Lemma first_availability_settles_and_alerts_once_witness :
  let e := world (fun _ => Listed [item "A" 1; item "B" 2; item "C" 3; item "D" 4])
             refused true in
  FirstAvailability.reconcile unsettled [item "A" 1; item "B" 2; item "C" 3; item "D" 4] =
    (FirstAvailability.setFound unsettled true, Some 4) /\
  FirstAvailability.Found
    (FirstAvailability.reconcile unsettled
       [item "A" 1; item "B" 2; item "C" 3; item "D" 4]).1 = true /\
  moviesList (FirstAvailability.processMovie e 0 (atStart [unsettled])).2 =
    Some [FirstAvailability.setFound unsettled true] /\
  (exists m',
     Go.elems (moviesList (FirstAvailability.processMovie e 0 (atStart [unsettled])).2)
       !! 0%nat = Some m' /\
     m' = (FirstAvailability.reconcile unsettled
             [item "A" 1; item "B" 2; item "C" 3; item "D" 4]).1 /\
     FirstAvailability.Found m' = true) /\
  (forall d,
     formattedDate "20250327" = Some d ->
     (FirstAvailability.processMovie e 0 (atStart [unsettled])).1 = Ok tt /\
     requests (FirstAvailability.processMovie e 0 (atStart [unsettled])).2 =
       [] ++ summaryAlert e unsettled d 4).
Proof.
  intros e.
  apply (first_availability_settles_and_alerts_once e 0%nat (atStart [unsettled]) unsettled
           [item "A" 1; item "B" 2; item "C" 3; item "D" 4]);
    [reflexivity | reflexivity | reflexivity | discriminate].
Defined.

(** ** An empty listing changes nothing *)

(** C7.  In either mode, reconciling a target with an empty observation
    list returns the target as it was and no event, and processing a
    target whose page lists nothing leaves the whole memory and the
    record of calls as they were. *)
Theorem empty_listing_changes_nothing :
  (forall m, Incremental.reconcile m [] = (m, [])) /\
  (forall e i st m,
     Go.elems (moviesList st) !! i = Some m ->
     browse e i (Incremental.bookingURL m) = Listed [] ->
     Incremental.processMovie e i st = (Ok tt, st)) /\
  (forall m, FirstAvailability.reconcile m [] = (m, None)) /\
  (forall e i st m,
     Go.elems (moviesList st) !! i = Some m ->
     browse e i (FirstAvailability.bookingURL m) = Listed [] ->
     FirstAvailability.processMovie e i st = (Ok tt, st)).
Proof.
  split_and!.
  - reflexivity.
  - intros e i st m Hi Hb. destruct (Incremental.Found m) eqn:Hf.
    + by apply (processMovie_found e i st m).
    + rewrite (processMovie_visit e i st m Hi Hf), Hb.
      change (Incremental.theatreDetails []) with (Some (@nil Theatre.TheatreDetails)).
      change (Incremental.reconcile m []) with (m, @nil Theatre.TheatreDetails).
      cbn [fst snd]. rewrite notify_nothing, stored_same by exact Hi. reflexivity.
  - reflexivity.
  - intros e i st m Hi Hb. destruct (FirstAvailability.Found m) eqn:Hf.
    + by apply (first_processMovie_found e i st m).
    + rewrite (first_processMovie_visit e i st m Hi Hf), Hb. reflexivity.
Qed.

Lemma empty_listing_changes_nothing_witness :
  Incremental.processMovie (world (fun _ => Listed []) refused true) 0 (atStart [theatreX])
    = (Ok tt, atStart [theatreX]) /\
  FirstAvailability.processMovie (world (fun _ => Listed []) refused true) 0
    (atStart [unsettled]) = (Ok tt, atStart [unsettled]).
Proof.
  destruct empty_listing_changes_nothing as (_ & Hinc & _ & Hfirst).
  split.
  - apply (Hinc _ 0%nat (atStart [theatreX]) theatreX); reflexivity.
  - apply (Hfirst _ 0%nat (atStart [unsettled]) unsettled); reflexivity.
Defined.

(** ** The date slices *)

(** C9.  [formattedDate] is defined exactly for dates of at least 8
    bytes: it then is bytes 7-8, 5-6 and 1-4 joined by hyphens; on a
    shorter date the first slice expression is out of range, so the
    notification block of either watcher panics before anything is
    sent. *)
Theorem formattedDate_needs_eight_bytes :
  (forall showDate,
     (8 <= String.length showDate)%nat ->
     formattedDate showDate =
     Some (substring 6 2 showDate +:+ "-" +:+ substring 4 2 showDate +:+ "-" +:+
           substring 0 4 showDate)) /\
  (forall showDate,
     (String.length showDate < 8)%nat -> formattedDate showDate = None) /\
  (forall e m bookingURL newTheatres st,
     newTheatres <> [] ->
     (String.length (Incremental.Date m) < 8)%nat ->
     Incremental.notify e m bookingURL newTheatres st = (Panic, st)) /\
  (forall e m bookingURL theatres st,
     (String.length (FirstAvailability.Date m) < 8)%nat ->
     FirstAvailability.notify e m bookingURL theatres st = (Panic, st)).
Proof.
  split_and!.
  - exact formattedDate_defined.
  - exact formattedDate_panics.
  - intros e m u news st Hne Hlen. apply notify_panics; [exact Hne|].
    by apply formattedDate_panics.
  - intros e m u n st Hlen. apply alert_panics. by apply formattedDate_panics.
Qed.

Lemma formattedDate_needs_eight_bytes_witness :
  formattedDate "20250319" = Some "19-03-2025" /\ formattedDate "250319" = None.
Proof.
  destruct formattedDate_needs_eight_bytes as (Hdef & Hpanic & _).
  split.
  - apply (Hdef "20250319"). vm_compute. lia.
  - apply (Hpanic "250319"). vm_compute. lia.
Defined.

(** ** A name element that is not found *)

(** C10.  In incremental mode the error of the name lookup is dropped
    and [Text()] is called on the element returned; when the lookup
    failed that element is nil, so the extraction loop panics: the item
    is neither skipped nor kept with an empty name, and the processing
    of the target stops there with the memory untouched. *)
Theorem missing_name_element_panics :
  (forall theatreElements theatreEl,
     theatreEl ∈ theatreElements ->
     nameDiv theatreEl = None ->
     Incremental.theatreDetails theatreElements = None) /\
  (forall e i st m theatreElements theatreEl,
     Go.elems (moviesList st) !! i = Some m ->
     Incremental.Found m = false ->
     browse e i (Incremental.bookingURL m) = Listed theatreElements ->
     theatreEl ∈ theatreElements ->
     nameDiv theatreEl = None ->
     Incremental.processMovie e i st = (Panic, st)).
Proof.
  assert (Hx : forall els el, el ∈ els -> nameDiv el = None ->
                 Incremental.theatreDetails els = None).
  { intros els el Hin Hnil. apply mapM_None. apply Exists_exists.
    exists el. split; [exact Hin|]. unfold Incremental.theatreDetail. by rewrite Hnil. }
  split; [exact Hx|].
  intros e i st m els el Hi Hf Hb Hin Hnil.
  rewrite (processMovie_visit e i st m Hi Hf), Hb, (Hx els el Hin Hnil). reflexivity.
Qed.

Lemma missing_name_element_panics_witness :
  Incremental.processMovie
    (world (fun _ => Listed [item "Theatre Y" 1; {| nameDiv := None; shows := Some 3%nat |}])
       delivered true)
    0 (atStart [theatreX]) = (Panic, atStart [theatreX]).
Proof.
  destruct missing_name_element_panics as (_ & H).
  apply (H _ 0%nat (atStart [theatreX]) theatreX
           [item "Theatre Y" 1; {| nameDiv := None; shows := Some 3%nat |}]
           {| nameDiv := None; shows := Some 3%nat |});
    [reflexivity | reflexivity | reflexivity | | reflexivity].
  apply elem_of_cons. right. apply elem_of_cons. by left.
Defined.

(** ** Names are not trimmed *)

(** C3, as stated, fails: an item whose name is two spaces is kept by
    the extraction as it is, added to [Theatres] and notified. *)
Lemma whitespace_name_is_added_and_notified :
  let e := world (fun _ => Listed [item "  " 2]) delivered true in
  Incremental.theatreDetails [item "  " 2] = Some [seen "  " 2] /\
  Incremental.reconcile theatreX [seen "  " 2] =
    (Incremental.setTheatres theatreX (Some ["Theatre X"; "  "]), [seen "  " 2]) /\
  (Incremental.processMovie e 0 (atStart [theatreX])).1 = Ok tt /\
  requests (Incremental.processMovie e 0 (atStart [theatreX])).2 =
    [theatreAlert e theatreX "27-03-2025" (seen "  " 2)].
Proof. vm_compute. auto. Qed.

(** C3, amended.  The name of an item is the text of its name element
    exactly as [Text()] returns it: nothing is trimmed.  Only the empty
    name is discarded: it yields no entry of [newTheatres] and is never
    added to [Theatres]; every other name, whitespace included, counts
    as a theatre and ends up in [Theatres]. *)
Theorem only_the_empty_name_is_discarded :
  (forall theatreEl name,
     nameDiv theatreEl = Some (Some name) ->
     Theatre.Name <$> Incremental.theatreDetail theatreEl = Some name) /\
  (forall m obs,
     ("" ∉ (Theatre.Name <$> (Incremental.reconcile m obs).2)) /\
     ("" ∈ Go.elems (Incremental.Theatres (Incremental.reconcile m obs).1) ->
      "" ∈ Go.elems (Incremental.Theatres m))) /\
  (forall m obs t,
     t ∈ obs -> Theatre.Name t <> "" ->
     Theatre.Name t ∈ Go.elems (Incremental.Theatres (Incremental.reconcile m obs).1)).
Proof.
  split_and!.
  - intros el name H. unfold Incremental.theatreDetail. rewrite H. reflexivity.
  - intros m obs.
    destruct (reconcile_spec m obs) as (_ & Hel & _ & _ & _ & Hnew & _). cbn zeta in *.
    assert (Hno : "" ∉ (Theatre.Name <$> (Incremental.reconcile m obs).2)).
    { intros Hin. apply list_elem_of_fmap in Hin as (t & Heq & Ht).
      destruct (Hnew t Ht) as [Hne _]. congruence. }
    split; [exact Hno|].
    rewrite Hel, elem_of_app. intros [Hold|Hin]; [exact Hold | by destruct Hno].
  - intros m obs t Ht Hne.
    destruct (reconcile_spec m obs) as (_ & _ & _ & _ & _ & _ & Hall). by apply Hall.
Qed.

Lemma only_the_empty_name_is_discarded_witness :
  Theatre.Name <$> Incremental.theatreDetail (item " PVR: Lulu " 4) = Some " PVR: Lulu " /\
  " PVR: Lulu " ∈ Go.elems (Incremental.Theatres
                    (Incremental.reconcile theatreX [seen "" 3; seen " PVR: Lulu " 4]).1).
Proof.
  destruct only_the_empty_name_is_discarded as (Hverbatim & _ & Hkept).
  split.
  - apply (Hverbatim (item " PVR: Lulu " 4) " PVR: Lulu "). reflexivity.
  - apply (Hkept theatreX [seen "" 3; seen " PVR: Lulu " 4] (seen " PVR: Lulu " 4)).
    + apply elem_of_cons. right. apply elem_of_cons. by left.
    + discriminate.
Defined.

(** ** The state file: decoding what was encoded *)

Lemma into_strings_of_strings (s : Go.slice string) :
  into_strings None (of_strings s) = Some s.
Proof.
  destruct s as [l|]; [|reflexivity]. cbn.
  rewrite mapM_fmap_Some by done. reflexivity.
Qed.

Lemma into_structs_of_structs {T} fold tags (set : string -> value -> T -> option T)
    (zero : T) (of_struct : T -> value) (s : Go.slice T) :
  (forall t, into_struct fold tags set zero (of_struct t) = Some t) ->
  into_structs fold tags set zero None (of_structs of_struct s) = Some s.
Proof.
  intros H. destruct s as [l|]; [|reflexivity]. cbn.
  rewrite mapM_fmap_Some by done. reflexivity.
Qed.

Lemma incremental_into_struct_of_struct fold (m : Incremental.MovieDetails) :
  into_struct fold Incremental.tags Incremental.set Incremental.zero
    (Incremental.of_struct m) = Some m.
Proof.
  destruct m as [n s c ci cc d f t].
  pose proof (into_strings_of_strings t) as Ht.
  unfold Incremental.of_struct, into_struct. cbn -[into_strings of_strings].
  rewrite Ht. reflexivity.
Qed.

Lemma first_into_struct_of_struct fold (m : FirstAvailability.MovieDetails) :
  into_struct fold FirstAvailability.tags FirstAvailability.set FirstAvailability.zero
    (FirstAvailability.of_struct m) = Some m.
Proof. destruct m as [n s c ci cc d f]. reflexivity. Qed.

Lemma incremental_Unmarshal_Marshal e (moviesList : Go.slice Incremental.MovieDetails) :
  Incremental.Unmarshal e (Incremental.MarshalIndent moviesList) = Some moviesList.
Proof.
  apply into_structs_of_structs. intros m. apply incremental_into_struct_of_struct.
Qed.

Lemma first_Unmarshal_Marshal e (moviesList : Go.slice FirstAvailability.MovieDetails) :
  FirstAvailability.Unmarshal e (FirstAvailability.MarshalIndent moviesList) = Some moviesList.
Proof.
  apply into_structs_of_structs. intros m. apply first_into_struct_of_struct.
Qed.

Lemma writeFS_read fs filename c : writeFS fs filename c filename = Some c.
Proof. unfold writeFS. by rewrite String.eqb_refl. Qed.

(** C8.  A state document that loads, saved again at once, gives a
    document that holds, for every target and in the same order, the
    values of the record's fields as they were loaded: loading the
    saved file returns the same list of records, in either variant. *)
Theorem load_then_save_round_trip :
  (forall e fs filename moviesList,
     Incremental.loadMoviesFromJSON e fs filename = Some moviesList ->
     writeFile e filename (Doc (Incremental.MarshalIndent moviesList)) = None ->
     let saved := Incremental.saveMoviesToJSON e fs filename moviesList in
     saved.1 = None /\
     saved.2 filename = Some (Doc (Incremental.MarshalIndent moviesList)) /\
     (forall e', Incremental.loadMoviesFromJSON e' saved.2 filename = Some moviesList)) /\
  (forall e fs filename moviesList,
     FirstAvailability.loadMoviesFromJSON e fs filename = Some moviesList ->
     writeFile e filename (Doc (FirstAvailability.MarshalIndent moviesList)) = None ->
     let saved := FirstAvailability.saveMoviesToJSON e fs filename moviesList in
     saved.1 = None /\
     saved.2 filename = Some (Doc (FirstAvailability.MarshalIndent moviesList)) /\
     (forall e', FirstAvailability.loadMoviesFromJSON e' saved.2 filename = Some moviesList)).
Proof.
  split.
  - intros e fs filename ms _ Hw saved. subst saved.
    unfold Incremental.saveMoviesToJSON. rewrite Hw. cbn [fst snd].
    split; [reflexivity|]. split; [apply writeFS_read|].
    intros e'. unfold Incremental.loadMoviesFromJSON. rewrite writeFS_read.
    apply incremental_Unmarshal_Marshal.
  - intros e fs filename ms _ Hw saved. subst saved.
    unfold FirstAvailability.saveMoviesToJSON. rewrite Hw. cbn [fst snd].
    split; [reflexivity|]. split; [apply writeFS_read|].
    intros e'. unfold FirstAvailability.loadMoviesFromJSON. rewrite writeFS_read.
    apply first_Unmarshal_Marshal.
Qed.

(** ** Loops *)

Section Loops.
Context {T : Type}.
Implicit Types (st : State T) (body : nat -> M (State T) unit).

Lemma forEach_cons {A} (f : A -> M (State T) unit) x l st :
  forEach (x :: l) f st =
  match f x st with
  | (Ok _, st') => forEach l f st'
  | (Panic, st') => (Panic, st')
  | (Fatal, st') => (Fatal, st')
  end.
Proof. reflexivity. Qed.

(** A relation between states that every iteration respects is
    respected by the loop. *)
Lemma forEach_preserves {A} (R : State T -> State T -> Prop) (f : A -> M (State T) unit) :
  (forall st, R st st) ->
  (forall st1 st2 st3, R st1 st2 -> R st2 st3 -> R st1 st3) ->
  (forall x st, R st (f x st).2) ->
  forall l st, R st (forEach l f st).2.
Proof.
  intros Hrefl Htrans Hstep l. induction l as [|x l IH]; intros st.
  - apply Hrefl.
  - rewrite forEach_cons. pose proof (Hstep x st) as Hx.
    destruct (f x st) as [[[]| |] st1]; cbn [snd] in *; [|exact Hx|exact Hx].
    eapply Htrans; [exact Hx | apply IH].
Qed.


(** A loop over consecutive indices whose iterations all end normally
    ends normally, with the invariant carried along. *)
Lemma forEach_seq_ok (P : nat -> State T -> Prop) body :
  forall n lo st,
    (forall k st, (lo <= k < lo + n)%nat -> P k st ->
       exists st', body k st = (Ok tt, st') /\ P (S k) st') ->
    P lo st ->
    exists st', forEach (seq lo n) body st = (Ok tt, st') /\ P (lo + n)%nat st'.
Proof.
  induction n as [|n IH]; intros lo st Hstep HP.
  - exists st. rewrite Nat.add_0_r. split; [reflexivity | exact HP].
  - cbn [seq]. rewrite forEach_cons.
    destruct (Hstep lo st ltac:(lia) HP) as (st1 & -> & HP1).
    destruct (IH (S lo) st1) as (st' & Hrun & HP'); [|exact HP1|].
    + intros k s Hk. apply Hstep. lia.
    + exists st'. split; [exact Hrun|].
      replace (lo + S n)%nat with (S lo + n)%nat by lia. exact HP'.
Qed.
End Loops.

(** ** The memory across a run of the incremental watcher *)

Section IncrementalMemory.
Import Incremental.
Implicit Types (e : Env) (st : State MovieDetails) (m : MovieDetails).

Lemma notify_memory e m bookingURL newTheatres st :
  moviesList (notify e m bookingURL newTheatres st).2 = moviesList st /\
  (notify e m bookingURL newTheatres st).1 =
    match newTheatres, formattedDate (Date m) with
    | [], _ => Ok tt
    | _ :: _, Some _ => Ok tt
    | _ :: _, None => Panic
    end.
Proof.
  destruct newTheatres as [|t news].
  - rewrite notify_nothing. by split.
  - destruct (formattedDate (Date m)) as [d|] eqn:Hd.
    + destruct (notify_sends e m bookingURL (t :: news) d st Hd) as (st' & -> & Hm & _).
      by split.
    + rewrite notify_panics by done. by split.
Qed.

Lemma elems_stored i m st :
  Go.elems (moviesList (stored i m st)) = <[i := m]> (Go.elems (moviesList st)).
Proof. destruct st as [[l|] c]; reflexivity. Qed.

(** What [processMovie] leaves in memory and how it ends depend on
    the memory and on the page only. *)
Lemma processMovie_memory e i st :
  match Go.elems (moviesList st) !! i with
  | None => processMovie e i st = (Panic, st)
  | Some m =>
      if Found m then processMovie e i st = (Ok tt, st)
      else
        match browse e i (bookingURL m) with
        | ConnectFailed => processMovie e i st = (Fatal, st)
        | PageFailed => processMovie e i st = (Panic, st)
        | NoContainer | NoElements => processMovie e i st = (Ok tt, st)
        | Listed theatreElements =>
            match theatreDetails theatreElements with
            | None => processMovie e i st = (Panic, st)
            | Some obs =>
                moviesList (processMovie e i st).2 =
                  moviesList (stored i (reconcile m obs).1 st) /\
                (processMovie e i st).1 =
                  match (reconcile m obs).2, formattedDate (Date m) with
                  | [], _ => Ok tt
                  | _ :: _, Some _ => Ok tt
                  | _ :: _, None => Panic
                  end
            end
        end
  end.
Proof.
  destruct (Go.elems (moviesList st) !! i) as [m|] eqn:Hi;
    [|by apply processMovie_missing].
  destruct (Found m) eqn:Hf; [by apply (processMovie_found e i st m)|].
  rewrite (processMovie_visit e i st m Hi Hf).
  destruct (browse e i (bookingURL m)); try reflexivity.
  destruct (theatreDetails theatreElements) as [obs|]; [|reflexivity].
  destruct (reconcile_spec m obs) as (Hset & _). cbn zeta in Hset.
  pose proof (notify_memory e (reconcile m obs).1 (bookingURL m) (reconcile m obs).2
                (stored i (reconcile m obs).1 st)) as [Hm Ho].
  split; [exact Hm|]. rewrite Ho.
  replace (Date (reconcile m obs).1) with (Date m); [reflexivity|].
  rewrite Hset. reflexivity.
Qed.

Lemma grows_refl (l : list MovieDetails) : grows l l.
Proof. unfold grows. apply Forall2_same_length_lookup. split; [done|].
  intros i x y Hx Hy. rewrite Hx in Hy. by injection Hy as ->. Qed.

Lemma grows_trans (l1 l2 l3 : list MovieDetails) : grows l1 l2 -> grows l2 l3 -> grows l1 l3.
Proof.
  unfold grows. intros H12. revert l3.
  induction H12 as [|x y l1 l2 Hxy _ IH]; intros l3 H23; inversion H23; subst.
  - constructor.
  - constructor; [by etrans | by apply IH].
Qed.

Lemma grows_insert (l : list MovieDetails) i m m' :
  l !! i = Some m ->
  Go.elems (Theatres m) `prefix_of` Go.elems (Theatres m') ->
  grows l (<[i := m']> l).
Proof.
  intros Hi Hp. unfold grows. apply Forall2_same_length_lookup.
  split; [by rewrite length_insert|].
  intros j x y Hx Hy. destruct (decide (i = j)) as [->|Hne].
  - rewrite list_lookup_insert_eq in Hy by (by eapply lookup_lt_Some).
    injection Hy as <-. rewrite Hi in Hx. by injection Hx as <-.
  - rewrite list_lookup_insert_ne in Hy by done. rewrite Hx in Hy. by injection Hy as ->.
Qed.

Lemma processMovie_grows e i st :
  grows (Go.elems (moviesList st)) (Go.elems (moviesList (processMovie e i st).2)).
Proof.
  pose proof (processMovie_memory e i st) as H.
  destruct (Go.elems (moviesList st) !! i) as [m|] eqn:Hi;
    [|rewrite H; apply grows_refl].
  destruct (Found m); [rewrite H; apply grows_refl|].
  destruct (browse e i (bookingURL m)); try (rewrite H; apply grows_refl).
  destruct (theatreDetails theatreElements) as [obs|]; [|rewrite H; apply grows_refl].
  destruct H as [-> _]. rewrite elems_stored.
  apply (grows_insert _ i m); [exact Hi|].
  destruct (reconcile_spec m obs) as (_ & Hel & _). cbn zeta in Hel. rewrite Hel.
  by apply prefix_app_r.
Qed.

Lemma loop_grows e st :
  grows (Go.elems (moviesList st)) (Go.elems (moviesList (loop e st).2)).
Proof.
  unfold loop, bind, get.
  apply (forEach_preserves
           (fun s s' => grows (Go.elems (moviesList s)) (Go.elems (moviesList s')))).
  - intros s. apply grows_refl.
  - intros s1 s2 s3. apply grows_trans.
  - intros x s. apply processMovie_grows.
Qed.

Lemma main_memory e fs loaded :
  loadMoviesFromJSON e fs moviesFilename = Some loaded ->
  memory (main e fs) = moviesList (loop e {| moviesList := loaded; calls := [] |}).2 /\
  posted (main e fs) = calls (loop e {| moviesList := loaded; calls := [] |}).2.
Proof.
  intros Hl. unfold main. rewrite Hl.
  destruct (loop e _) as [[[]| |] st]; cbn [snd]; try by split.
  destruct (saveMoviesToJSON e fs moviesFilename (moviesList st)). by split.
Qed.
End IncrementalMemory.

(** ** The discovered set only grows *)

(** C5.  Reconciliation only appends to [Theatres]; processing a target,
    the whole loop and a whole run (however it ends) leave every
    target with a [Theatres] list that extends the one it had, and the
    same holds for the list a later run loads from the file a completed
    run saved. *)
Theorem discovered_only_grows :
  (forall m obs,
     Go.elems (Incremental.Theatres m) `prefix_of`
     Go.elems (Incremental.Theatres (Incremental.reconcile m obs).1)) /\
  (forall e i st,
     grows (Go.elems (moviesList st))
           (Go.elems (moviesList (Incremental.processMovie e i st).2))) /\
  (forall e fs loaded,
     Incremental.loadMoviesFromJSON e fs moviesFilename = Some loaded ->
     grows (Go.elems loaded) (Go.elems (memory (Incremental.main e fs))) /\
     (exit (Incremental.main e fs) = Completed None ->
      forall e', exists reloaded,
        Incremental.loadMoviesFromJSON e' (files (Incremental.main e fs)) moviesFilename
          = Some reloaded /\
        grows (Go.elems loaded) (Go.elems reloaded))).
Proof.
  split_and!.
  - intros m obs. destruct (reconcile_spec m obs) as (_ & Hel & _). cbn zeta in Hel.
    rewrite Hel. by apply prefix_app_r.
  - apply processMovie_grows.
  - intros e fs loaded Hl.
    destruct (main_memory e fs loaded Hl) as [Hmem _].
    assert (Hg : grows (Go.elems loaded) (Go.elems (memory (Incremental.main e fs)))).
    { rewrite Hmem. apply (loop_grows e {| moviesList := loaded; calls := [] |}). }
    split; [exact Hg|].
    intros Hexit e'. exists (memory (Incremental.main e fs)). split; [|exact Hg].
    revert Hexit. unfold Incremental.main. rewrite Hl.
    destruct (Incremental.loop e _) as [[[]| |] st]; cbn [exit]; try discriminate.
    unfold Incremental.saveMoviesToJSON.
    destruct (writeFile e moviesFilename _); cbn [exit files memory]; [discriminate|].
    intros _. unfold Incremental.loadMoviesFromJSON. rewrite writeFS_read.
    apply incremental_Unmarshal_Marshal.
Qed.

Lemma discovered_only_grows_witness :
  let e := world (fun _ => Listed [item "Theatre X" 5; item "Theatre Y" 1]) refused true in
  let fs := stateFile (Incremental.MarshalIndent (Some [theatreX])) in
  grows [theatreX] (Go.elems (memory (Incremental.main e fs))) /\
  (exit (Incremental.main e fs) = Completed None ->
   forall e', exists reloaded,
     Incremental.loadMoviesFromJSON e' (files (Incremental.main e fs)) moviesFilename
       = Some reloaded /\
     grows [theatreX] (Go.elems reloaded)).
Proof.
  intros e fs. destruct discovered_only_grows as (_ & _ & H).
  apply (H e fs (Some [theatreX])). vm_compute. reflexivity.
Defined.

Lemma load_then_save_round_trip_witness :
  let e := world (fun _ => NoContainer) delivered true in
  let fs := stateFile (JArray [JObject [("Name", JString "L2: Empuraan");
                                         ("date", JString "20250327");
                                         ("rating", JNumber "4.5");
                                         ("theatres", JArray [JString "Theatre X"])]]) in
  let moviesList :=
    Some [ {| Incremental.Name := "L2: Empuraan"; Incremental.SlugName := "";
              Incremental.Code := ""; Incremental.City := ""; Incremental.CityCode := "";
              Incremental.Date := "20250327"; Incremental.Found := false;
              Incremental.Theatres := Some ["Theatre X"] |} ] in
  let saved := Incremental.saveMoviesToJSON e fs moviesFilename moviesList in
  saved.1 = None /\
  saved.2 moviesFilename = Some (Doc (Incremental.MarshalIndent moviesList)) /\
  (forall e', Incremental.loadMoviesFromJSON e' saved.2 moviesFilename = Some moviesList).
Proof.
  intros e fs ms. destruct load_then_save_round_trip as (H & _).
  apply (H e fs moviesFilename ms); vm_compute; reflexivity.
Defined.

(** ** Which failures skip a target and which end the run *)

Section Loops2.
Context {T : Type}.

End Loops2.

Section IncrementalFaults.
Import Incremental.
Implicit Types (e : Env) (st : State MovieDetails) (m : MovieDetails).

Lemma processMovie_frame e i st :
  forall j, j <> i ->
    Go.elems (moviesList (processMovie e i st).2) !! j = Go.elems (moviesList st) !! j.
Proof.
  intros j Hj. pose proof (processMovie_memory e i st) as H.
  destruct (Go.elems (moviesList st) !! i) as [m|] eqn:Hi; [|by rewrite H].
  destruct (Found m); [by rewrite H|].
  destruct (browse e i (bookingURL m)); try (by rewrite H).
  destruct (theatreDetails theatreElements) as [obs|]; [|by rewrite H].
  destruct H as [-> _]. rewrite elems_stored. by apply list_lookup_insert_ne.
Qed.

Lemma processMovie_calm e i st m :
  Go.elems (moviesList st) !! i = Some m -> calm e i m ->
  (processMovie e i st).1 = Ok tt /\
  (skipped e i m -> (processMovie e i st).2 = st).
Proof.
  intros Hi Hcalm. pose proof (processMovie_memory e i st) as H. rewrite Hi in H.
  unfold calm, skipped in *.
  destruct (Found m); [rewrite H; by split|].
  destruct Hcalm as [Hcalm|Hcalm]; [discriminate|].
  destruct (browse e i (bookingURL m)) as [| | | |els]; try done;
    try (rewrite H; by split).
  destruct Hcalm as [Hnames Hlen].
  destruct (theatreDetails els) as [obs|] eqn:Hx.
  - destruct H as [_ ->]. split; [|by intros [?|?]].
    rewrite formattedDate_defined by exact Hlen. by destruct (reconcile m obs).2.
  - exfalso. apply mapM_None in Hx. apply Exists_exists in Hx as (el & Hin & Hnone).
    rewrite Forall_forall in Hnames. apply (Hnames el Hin).
    unfold theatreDetail in Hnone. by destruct (nameDiv el).
Qed.

Lemma untouched_step e loaded k st m :
  untouched e loaded k st -> loaded !! k = Some m -> calm e k m ->
  exists st', processMovie e k st = (Ok tt, st') /\ untouched e loaded (S k) st'.
Proof.
  intros [Hrest Hskip] Hk Hcalm.
  assert (Hi : Go.elems (moviesList st) !! k = Some m) by (rewrite Hrest by lia; done).
  destruct (processMovie_calm e k st m Hi Hcalm) as [Hok Hsame].
  pose proof (processMovie_frame e k st) as Hframe.
  destruct (processMovie e k st) as [o st'] eqn:Hrun. cbn [fst snd] in *. subst o.
  exists st'. split; [reflexivity|]. split.
  - intros i Hle. rewrite Hframe by lia. apply Hrest. lia.
  - intros i m' Hlt Hm' Hsk. destruct (decide (i = k)) as [->|Hne].
    + rewrite Hk in Hm'. injection Hm' as <-. rewrite Hsame by exact Hsk. exact Hi.
    + rewrite Hframe by done. apply (Hskip i m'); [lia|done|done].
Qed.

Lemma loop_calm e (loaded : Go.slice MovieDetails) :
  (forall i m, Go.elems loaded !! i = Some m -> calm e i m) ->
  exists st',
    loop e {| moviesList := loaded; calls := [] |} = (Ok tt, st') /\
    (forall i m, Go.elems loaded !! i = Some m -> skipped e i m ->
       Go.elems (moviesList st') !! i = Some m).
Proof.
  intros Hcalm.
  destruct (forEach_seq_ok (untouched e (Go.elems loaded)) (processMovie e)
              (length (Go.elems loaded)) 0 {| moviesList := loaded; calls := [] |})
    as (st' & Hrun & [_ Hskip]).
  - intros k st Hk Hun.
    destruct (lookup_lt_is_Some_2 (Go.elems loaded) k ltac:(lia)) as [m Hm].
    apply (untouched_step e _ k st m Hun Hm). by apply Hcalm.
  - split; [done|]. intros i m Hlt. lia.
  - exists st'. split; [exact Hrun|].
    intros i m Hm Hsk. apply (Hskip i m); [|done|done].
    apply lookup_lt_Some in Hm. lia.
Qed.

End IncrementalFaults.


(** ** The memory does not depend on what the endpoints answer *)

Section Independence.
Implicit Types (e : Env).


Lemma first_notify_memory e m bookingURL theatres (st : State FirstAvailability.MovieDetails) :
  moviesList (FirstAvailability.notify e m bookingURL theatres st).2 = moviesList st /\
  (FirstAvailability.notify e m bookingURL theatres st).1 =
    match formattedDate (FirstAvailability.Date m) with
    | Some _ => Ok tt
    | None => Panic
    end.
Proof.
  destruct (formattedDate (FirstAvailability.Date m)) as [d|] eqn:Hd.
  - destruct (alert_sends e m bookingURL d theatres st Hd) as (st' & -> & Hm & _).
    by split.
  - rewrite alert_panics by done. by split.
Qed.



End Independence.



Example refused_delivery_is_not_repeated :
  let visit := fun _ : nat => Listed [item "Theatre X" 5; item "Theatre Y" 1] in
  let first := Incremental.main (world visit refused true)
                 (stateFile (Incremental.MarshalIndent (Some [theatreX]))) in
  let second := Incremental.main (world visit delivered true) (files first) in
  exit first = Completed None /\
  length (posted first) = 1%nat /\
  exit second = Completed None /\
  posted second = [].
Proof. vm_compute. repeat split. Qed.

(** * Further properties of the code *)

(** ** The novelty loop as an operation on records *)

Lemma reconcile_fold_known (obs : list Theatre.TheatreDetails) :
  forall (m : Incremental.MovieDetails) (acc : list Theatre.TheatreDetails),
    (forall t, t ∈ obs ->
       Theatre.Name t = "" \/ Theatre.Name t ∈ Go.elems (Incremental.Theatres m)) ->
    fold_left Incremental.reconcile1 obs (m, acc) = (m, acc).
Proof.
  induction obs as [|t obs IH]; intros m acc Hknown; [reflexivity|].
  cbn [fold_left].
  assert (Hstep : Incremental.reconcile1 (m, acc) t = (m, acc)).
  { unfold Incremental.reconcile1.
    destruct (Hknown t) as [Hempty|Hin]; [apply elem_of_cons; by left| |].
    - rewrite Hempty. reflexivity.
    - apply Contains_spec in Hin. rewrite Hin.
      by destruct (String.eqb (Theatre.Name t) ""). }
  rewrite Hstep. apply IH. intros t' Ht'. apply Hknown. apply elem_of_cons. by right.
Qed.

(** Reconciling twice with the same listing: the second pass finds
    nothing new and returns the record of the first pass unchanged; so
    does any pass over a listing all of whose names are empty or already
    in [Theatres]. *)
Theorem reconcile_is_idempotent :
  (forall m obs,
     Incremental.reconcile (Incremental.reconcile m obs).1 obs =
     ((Incremental.reconcile m obs).1, [])) /\
  (forall m obs,
     (forall t, t ∈ obs ->
        Theatre.Name t = "" \/ Theatre.Name t ∈ Go.elems (Incremental.Theatres m)) ->
     Incremental.reconcile m obs = (m, [])).
Proof.
  assert (Hknown : forall m obs,
            (forall t, t ∈ obs ->
               Theatre.Name t = "" \/ Theatre.Name t ∈ Go.elems (Incremental.Theatres m)) ->
            Incremental.reconcile m obs = (m, [])).
  { intros m obs H. unfold Incremental.reconcile. by apply reconcile_fold_known. }
  split; [|exact Hknown].
  intros m obs. apply Hknown. intros t Ht.
  destruct (reconcile_spec m obs) as (_ & _ & _ & _ & _ & _ & Hall). cbn zeta in Hall.
  destruct (String.eqb_spec (Theatre.Name t) "") as [Hempty|Hne]; [by left|].
  right. by apply Hall.
Qed.

Lemma reconcile_is_idempotent_witness :
  Incremental.reconcile theatreX [seen "" 2; seen "Theatre X" 7] = (theatreX, []).
Proof.
  destruct reconcile_is_idempotent as (_ & H).
  apply (H theatreX [seen "" 2; seen "Theatre X" 7]).
  intros t Ht. apply elem_of_cons in Ht as [->|Ht]; [by left|].
  apply elem_of_cons in Ht as [->|Ht]; [right|by apply elem_of_nil in Ht].
  apply elem_of_cons. by left.
Defined.

Lemma reconcile_fold_acc (obs : list Theatre.TheatreDetails) :
  forall (m : Incremental.MovieDetails) (acc : list Theatre.TheatreDetails),
    fold_left Incremental.reconcile1 obs (m, acc) =
    ((fold_left Incremental.reconcile1 obs (m, [])).1,
     acc ++ (fold_left Incremental.reconcile1 obs (m, [])).2).
Proof.
  induction obs as [|t obs IH]; intros m acc.
  - cbn. by rewrite app_nil_r.
  - cbn [fold_left].
    assert (Hstep : Incremental.reconcile1 (m, acc) t =
                    ((Incremental.reconcile1 (m, []) t).1,
                     acc ++ (Incremental.reconcile1 (m, []) t).2)).
    { unfold Incremental.reconcile1.
      destruct (String.eqb (Theatre.Name t) ""); [cbn; by rewrite app_nil_r|].
      destruct (negb (slices.Contains (Incremental.Theatres m) (Theatre.Name t)));
        cbn; [reflexivity | by rewrite app_nil_r]. }
    rewrite Hstep.
    destruct (Incremental.reconcile1 (m, []) t) as [m1 acc1]. cbn [fst snd].
    rewrite (IH m1 (acc ++ acc1)), (IH m1 acc1). cbn [fst snd].
    by rewrite app_assoc.
Qed.

(** A listing reconciled in two parts gives the record and the new
    theatres of the whole: the second part is reconciled against the
    record the first part left, and the new theatres are those of the
    first part followed by those of the second. *)
Theorem reconcile_of_appended_listings :
  forall m obs1 obs2,
    Incremental.reconcile m (obs1 ++ obs2) =
    ((Incremental.reconcile (Incremental.reconcile m obs1).1 obs2).1,
     (Incremental.reconcile m obs1).2 ++
     (Incremental.reconcile (Incremental.reconcile m obs1).1 obs2).2).
Proof.
  intros m obs1 obs2. unfold Incremental.reconcile. rewrite fold_left_app.
  destruct (fold_left Incremental.reconcile1 obs1 (m, [])) as [m1 acc1]. cbn [fst snd].
  apply reconcile_fold_acc.
Qed.

Lemma reconcile_NoDup m obs :
  NoDup (Go.elems (Incremental.Theatres m)) ->
  NoDup (Go.elems (Incremental.Theatres (Incremental.reconcile m obs).1)).
Proof.
  intros Hnd.
  destruct (reconcile_spec m obs) as (_ & Hel & _ & _ & Hnew_nd & Hnew & _).
  cbn zeta in *. rewrite Hel. apply NoDup_app. split; [exact Hnd|]. split; [|exact Hnew_nd].
  intros n Hold Hin. apply list_elem_of_fmap in Hin as (t & -> & Ht).
  by destruct (Hnew t Ht) as [_ Hnot].
Qed.

(** If no name occurs twice in [Theatres], none does after
    reconciliation, whatever the listing repeats. *)
Theorem reconcile_keeps_names_unique :
  forall m obs,
    NoDup (Go.elems (Incremental.Theatres m)) ->
    NoDup (Go.elems (Incremental.Theatres (Incremental.reconcile m obs).1)).
Proof. exact reconcile_NoDup. Qed.

Lemma reconcile_keeps_names_unique_witness :
  NoDup (Go.elems (Incremental.Theatres
           (Incremental.reconcile theatreX
              [seen "Theatre Y" 1; seen "Theatre X" 2; seen "Theatre Y" 3]).1)).
Proof.
  apply (reconcile_keeps_names_unique theatreX
           [seen "Theatre Y" 1; seen "Theatre X" 2; seen "Theatre Y" 3]).
  cbn. apply NoDup_singleton.
Defined.

(** ** What a run of the incremental watcher keeps *)

Section RunInvariant.
Variable R : relation Incremental.MovieDetails.
Hypothesis R_refl : forall m, R m m.
Hypothesis R_trans : forall m1 m2 m3, R m1 m2 -> R m2 m3 -> R m1 m3.
Hypothesis R_reconcile : forall m obs, R m (Incremental.reconcile m obs).1.

Lemma related_refl (l : list Incremental.MovieDetails) : Forall2 R l l.
Proof. induction l; constructor; auto. Qed.

Lemma related_trans (l1 l2 l3 : list Incremental.MovieDetails) :
  Forall2 R l1 l2 -> Forall2 R l2 l3 -> Forall2 R l1 l3.
Proof.
  intros H12. revert l3.
  induction H12 as [|x y l1 l2 Hxy _ IH]; intros l3 H23; inversion H23; subst.
  - constructor.
  - constructor; [by eapply R_trans | by apply IH].
Qed.

Lemma related_insert (l : list Incremental.MovieDetails) i m m' :
  l !! i = Some m -> R m m' -> Forall2 R l (<[i := m']> l).
Proof.
  intros Hi HR. apply Forall2_same_length_lookup.
  split; [by rewrite length_insert|].
  intros j x y Hx Hy. destruct (decide (i = j)) as [->|Hne].
  - rewrite list_lookup_insert_eq in Hy by (by eapply lookup_lt_Some).
    injection Hy as <-. rewrite Hi in Hx. by injection Hx as <-.
  - rewrite list_lookup_insert_ne in Hy by done. rewrite Hx in Hy.
    injection Hy as ->. apply R_refl.
Qed.

Lemma processMovie_related e i (st : State Incremental.MovieDetails) :
  Forall2 R (Go.elems (moviesList st))
            (Go.elems (moviesList (Incremental.processMovie e i st).2)).
Proof.
  pose proof (processMovie_memory e i st) as H.
  destruct (Go.elems (moviesList st) !! i) as [m|] eqn:Hi;
    [|rewrite H; apply related_refl].
  destruct (Incremental.Found m); [rewrite H; apply related_refl|].
  destruct (browse e i (Incremental.bookingURL m)); try (rewrite H; apply related_refl).
  destruct (Incremental.theatreDetails theatreElements) as [obs|];
    [|rewrite H; apply related_refl].
  destruct H as [-> _]. rewrite elems_stored.
  apply (related_insert _ i m); [exact Hi | apply R_reconcile].
Qed.

Lemma loop_related e (st : State Incremental.MovieDetails) :
  Forall2 R (Go.elems (moviesList st)) (Go.elems (moviesList (Incremental.loop e st).2)).
Proof.
  unfold Incremental.loop, bind, get.
  apply (forEach_preserves
           (fun s s' => Forall2 R (Go.elems (moviesList s)) (Go.elems (moviesList s')))).
  - intros s. apply related_refl.
  - intros s1 s2 s3. apply related_trans.
  - intros x s. apply processMovie_related.
Qed.

Lemma main_related e fs loaded :
  Incremental.loadMoviesFromJSON e fs moviesFilename = Some loaded ->
  Forall2 R (Go.elems loaded) (Go.elems (memory (Incremental.main e fs))).
Proof.
  intros Hl. destruct (main_memory e fs loaded Hl) as [-> _].
  apply (loop_related e {| moviesList := loaded; calls := [] |}).
Qed.
End RunInvariant.

(** However a run of the incremental watcher ends, its memory holds as
    many targets as were loaded, in the same order, and each differs
    from the loaded one at most in [Theatres]: the watcher never sets
    [Found] and never touches the name, slug, codes, city or date. *)
Theorem incremental_run_changes_only_theatres :
  forall e fs loaded,
    Incremental.loadMoviesFromJSON e fs moviesFilename = Some loaded ->
    Forall2 sameButTheatres (Go.elems loaded)
            (Go.elems (memory (Incremental.main e fs))) /\
    length (Go.elems (memory (Incremental.main e fs))) = length (Go.elems loaded).
Proof.
  intros e fs loaded Hl.
  assert (H : Forall2 sameButTheatres (Go.elems loaded)
                (Go.elems (memory (Incremental.main e fs)))).
  { apply (main_related sameButTheatres); [| | |exact Hl].
    - intros m. unfold sameButTheatres. by destruct m.
    - intros m1 m2 m3 H12 H23. unfold sameButTheatres in *.
      rewrite H23, H12. reflexivity.
    - intros m obs. unfold sameButTheatres.
      by destruct (reconcile_spec m obs) as (Hset & _). }
  split; [exact H|]. symmetry. by eapply Forall2_length.
Qed.

Lemma incremental_run_changes_only_theatres_witness :
  let e := world (fun _ => Listed [item "Theatre Y" 1]) refused true in
  let fs := stateFile (Incremental.MarshalIndent (Some [theatreX; theatreX])) in
  Forall2 sameButTheatres [theatreX; theatreX]
          (Go.elems (memory (Incremental.main e fs))) /\
  length (Go.elems (memory (Incremental.main e fs))) = 2%nat.
Proof.
  intros e fs.
  apply (incremental_run_changes_only_theatres e fs (Some [theatreX; theatreX])).
  vm_compute. reflexivity.
Defined.

(** If no target loaded lists a theatre name twice, none does in the
    memory a run leaves, however the run ends and whatever the pages
    repeat. *)
Theorem incremental_run_keeps_names_unique :
  forall e fs loaded,
    Incremental.loadMoviesFromJSON e fs moviesFilename = Some loaded ->
    Forall (fun m => NoDup (Go.elems (Incremental.Theatres m))) (Go.elems loaded) ->
    Forall (fun m => NoDup (Go.elems (Incremental.Theatres m)))
           (Go.elems (memory (Incremental.main e fs))).
Proof.
  intros e fs loaded Hl Hnd.
  pose proof (main_related
                (fun m m' => NoDup (Go.elems (Incremental.Theatres m)) ->
                             NoDup (Go.elems (Incremental.Theatres m')))
                (fun m H => H)
                (fun m1 m2 m3 H12 H23 H => H23 (H12 H))
                reconcile_NoDup e fs loaded Hl) as H.
  revert Hnd. induction H as [|m m' l l' Hm _ IH]; intros Hnd; [constructor|].
  inversion Hnd; subst. constructor; [by apply Hm | by apply IH].
Qed.

Lemma incremental_run_keeps_names_unique_witness :
  let e := world (fun _ => Listed [item "Theatre Y" 1; item "Theatre Y" 4]) refused true in
  let fs := stateFile (Incremental.MarshalIndent (Some [theatreX])) in
  Forall (fun m => NoDup (Go.elems (Incremental.Theatres m)))
         (Go.elems (memory (Incremental.main e fs))).
Proof.
  intros e fs.
  apply (incremental_run_keeps_names_unique e fs (Some [theatreX])).
  - vm_compute. reflexivity.
  - constructor; [|constructor]. cbn. apply NoDup_singleton.
Defined.

(** ** What a run of the first-availability watcher keeps *)

Lemma settledOrSame_refl m : settledOrSame m m.
Proof. by left. Qed.

Lemma settledOrSame_trans m1 m2 m3 :
  settledOrSame m1 m2 -> settledOrSame m2 m3 -> settledOrSame m1 m3.
Proof.
  intros [->|[Hf ->]] H23; [exact H23|].
  destruct H23 as [->|[Hf' _]]; [by right | discriminate].
Qed.

Lemma settled_refl (l : list FirstAvailability.MovieDetails) : Forall2 settledOrSame l l.
Proof. induction l; constructor; auto using settledOrSame_refl. Qed.

Lemma settled_trans (l1 l2 l3 : list FirstAvailability.MovieDetails) :
  Forall2 settledOrSame l1 l2 -> Forall2 settledOrSame l2 l3 -> Forall2 settledOrSame l1 l3.
Proof.
  intros H12. revert l3.
  induction H12 as [|x y l1 l2 Hxy _ IH]; intros l3 H23; inversion H23; subst.
  - constructor.
  - constructor; [by eapply settledOrSame_trans | by apply IH].
Qed.

Lemma settled_insert (l : list FirstAvailability.MovieDetails) i m :
  l !! i = Some m -> FirstAvailability.Found m = false ->
  Forall2 settledOrSame l (<[i := FirstAvailability.setFound m true]> l).
Proof.
  intros Hi Hf. apply Forall2_same_length_lookup.
  split; [by rewrite length_insert|].
  intros j x y Hx Hy. destruct (decide (i = j)) as [->|Hne].
  - rewrite list_lookup_insert_eq in Hy by (by eapply lookup_lt_Some).
    injection Hy as <-. rewrite Hi in Hx. injection Hx as <-. by right.
  - rewrite list_lookup_insert_ne in Hy by done. rewrite Hx in Hy.
    injection Hy as ->. by left.
Qed.

Lemma first_processMovie_settles e i (st : State FirstAvailability.MovieDetails) :
  Forall2 settledOrSame (Go.elems (moviesList st))
          (Go.elems (moviesList (FirstAvailability.processMovie e i st).2)).
Proof.
  destruct (Go.elems (moviesList st) !! i) as [m|] eqn:Hi.
  2:{ rewrite (first_processMovie_missing e i st Hi). apply settled_refl. }
  destruct (FirstAvailability.Found m) eqn:Hf.
  { rewrite (first_processMovie_found e i st m Hi Hf). apply settled_refl. }
  rewrite (first_processMovie_visit e i st m Hi Hf).
  destruct (browse e i (FirstAvailability.bookingURL m)) as [| | | |[|el els]];
    try apply settled_refl.
  destruct (first_notify_memory e (FirstAvailability.setFound m true)
              (FirstAvailability.bookingURL m) (Z.of_nat (length (el :: els)))
              (stored i (FirstAvailability.setFound m true) st)) as [-> _].
  rewrite elems_stored_at. by apply settled_insert.
Qed.

Lemma first_main_memory e fs loaded :
  FirstAvailability.loadMoviesFromJSON e fs moviesFilename = Some loaded ->
  memory (FirstAvailability.main e fs) =
    moviesList (FirstAvailability.loop e {| moviesList := loaded; calls := [] |}).2 /\
  posted (FirstAvailability.main e fs) =
    calls (FirstAvailability.loop e {| moviesList := loaded; calls := [] |}).2.
Proof.
  intros Hl. unfold FirstAvailability.main. rewrite Hl.
  destruct (FirstAvailability.loop e _) as [[[]| |] st]; cbn [snd]; try by split.
  destruct (FirstAvailability.saveMoviesToJSON e fs moviesFilename (moviesList st)).
  by split.
Qed.

(** However a run of the first-availability watcher ends, its memory
    holds as many targets as were loaded, in the same order, and each
    is the loaded one or the loaded one with [Found] switched from false
    to true: a flag once set is never cleared and no other field is
    touched. *)
Theorem first_run_only_sets_found :
  forall e fs loaded,
    FirstAvailability.loadMoviesFromJSON e fs moviesFilename = Some loaded ->
    Forall2 settledOrSame (Go.elems loaded)
            (Go.elems (memory (FirstAvailability.main e fs))) /\
    length (Go.elems (memory (FirstAvailability.main e fs))) = length (Go.elems loaded).
Proof.
  intros e fs loaded Hl.
  assert (H : Forall2 settledOrSame (Go.elems loaded)
                (Go.elems (memory (FirstAvailability.main e fs)))).
  { destruct (first_main_memory e fs loaded Hl) as [-> _].
    unfold FirstAvailability.loop, bind, get.
    apply (forEach_preserves
             (fun s s' => Forall2 settledOrSame (Go.elems (moviesList s))
                                  (Go.elems (moviesList s')))
             (FirstAvailability.processMovie e)
             (fun s => settled_refl _)
             (fun s1 s2 s3 => settled_trans _ _ _)
             (fun x s => first_processMovie_settles e x s)
             _ {| moviesList := loaded; calls := [] |}). }
  split; [exact H|]. symmetry. by eapply Forall2_length.
Qed.

Lemma first_run_only_sets_found_witness :
  let e := world (fun _ => Listed [item "A" 1; item "B" 2]) refused true in
  let fs := stateFile (FirstAvailability.MarshalIndent (Some [unsettled])) in
  Forall2 settledOrSame [unsettled] (Go.elems (memory (FirstAvailability.main e fs))) /\
  length (Go.elems (memory (FirstAvailability.main e fs))) = 1%nat.
Proof.
  intros e fs. apply (first_run_only_sets_found e fs (Some [unsettled])).
  vm_compute. reflexivity.
Defined.

(** ** Runs that visit nothing, and what a run may write *)

Lemma forEach_all_skip {T A} (f : A -> M (State T) unit) (l : list A) (st : State T) :
  (forall x, x ∈ l -> f x st = (Ok tt, st)) ->
  forEach l f st = (Ok tt, st).
Proof.
  induction l as [|x l IH]; intros H; [reflexivity|].
  rewrite forEach_cons, (H x) by (apply elem_of_cons; by left).
  apply IH. intros y Hy. apply H. apply elem_of_cons. by right.
Qed.

(** When every loaded target is settled -- in particular when the list
    is empty or null -- a run of either watcher opens no page, makes no
    call, reaches the save and keeps in memory exactly what it
    loaded. *)
Theorem settled_targets_are_never_visited :
  (forall e fs loaded,
     Incremental.loadMoviesFromJSON e fs moviesFilename = Some loaded ->
     Forall (fun m => Incremental.Found m = true) (Go.elems loaded) ->
     exit (Incremental.main e fs) =
       Completed (Incremental.saveMoviesToJSON e fs moviesFilename loaded).1 /\
     posted (Incremental.main e fs) = [] /\
     memory (Incremental.main e fs) = loaded) /\
  (forall e fs loaded,
     FirstAvailability.loadMoviesFromJSON e fs moviesFilename = Some loaded ->
     Forall (fun m => FirstAvailability.Found m = true) (Go.elems loaded) ->
     exit (FirstAvailability.main e fs) =
       Completed (FirstAvailability.saveMoviesToJSON e fs moviesFilename loaded).1 /\
     posted (FirstAvailability.main e fs) = [] /\
     memory (FirstAvailability.main e fs) = loaded).
Proof.
  split.
  - intros e fs loaded Hl Hall. unfold Incremental.main. rewrite Hl.
    assert (Hrun : Incremental.loop e {| moviesList := loaded; calls := [] |} =
                   (Ok tt, {| moviesList := loaded; calls := [] |})).
    { unfold Incremental.loop, bind, get. apply forEach_all_skip.
      intros i Hi. apply elem_of_seq in Hi as [_ Hi]. cbn [moviesList] in Hi.
      destruct (lookup_lt_is_Some_2 (Go.elems loaded) i) as [m Hm]; [lia|].
      apply (processMovie_found e i _ m); [exact Hm|].
      rewrite Forall_forall in Hall. apply Hall. by eapply list_elem_of_lookup_2. }
    rewrite Hrun. cbn [moviesList calls].
    destruct (Incremental.saveMoviesToJSON e fs moviesFilename loaded). by split.
  - intros e fs loaded Hl Hall. unfold FirstAvailability.main. rewrite Hl.
    assert (Hrun : FirstAvailability.loop e {| moviesList := loaded; calls := [] |} =
                   (Ok tt, {| moviesList := loaded; calls := [] |})).
    { unfold FirstAvailability.loop, bind, get. apply forEach_all_skip.
      intros i Hi. apply elem_of_seq in Hi as [_ Hi]. cbn [moviesList] in Hi.
      destruct (lookup_lt_is_Some_2 (Go.elems loaded) i) as [m Hm]; [lia|].
      apply (first_processMovie_found e i _ m); [exact Hm|].
      rewrite Forall_forall in Hall. apply Hall. by eapply list_elem_of_lookup_2. }
    rewrite Hrun. cbn [moviesList calls].
    destruct (FirstAvailability.saveMoviesToJSON e fs moviesFilename loaded). by split.
Qed.

Lemma settled_targets_are_never_visited_witness :
  let e := world (fun _ => PageFailed) refused true in
  let settled := FirstAvailability.setFound unsettled true in
  let fs := stateFile (FirstAvailability.MarshalIndent (Some [settled; settled])) in
  exit (FirstAvailability.main e fs) =
    Completed (FirstAvailability.saveMoviesToJSON e fs moviesFilename
                 (Some [settled; settled])).1 /\
  posted (FirstAvailability.main e fs) = [] /\
  memory (FirstAvailability.main e fs) = Some [settled; settled].
Proof.
  intros e settled fs. destruct settled_targets_are_never_visited as (_ & H).
  apply (H e fs (Some [settled; settled])).
  - vm_compute. reflexivity.
  - repeat constructor.
Defined.

(** Either watcher writes the state file in the final save only: a run
    that exits fatally or ends in the recovery handler leaves [bms.json]
    as it was, and a run whose save succeeds leaves in it the indented
    encoding of the memory it ends with. *)
Theorem the_state_file_changes_only_at_the_save :
  (forall e fs,
     (exit (Incremental.main e fs) = Exited \/ exit (Incremental.main e fs) = Recovered ->
      files (Incremental.main e fs) moviesFilename = fs moviesFilename) /\
     (exit (Incremental.main e fs) = Completed None ->
      files (Incremental.main e fs) moviesFilename =
        Some (Doc (Incremental.MarshalIndent (memory (Incremental.main e fs)))))) /\
  (forall e fs,
     (exit (FirstAvailability.main e fs) = Exited \/
      exit (FirstAvailability.main e fs) = Recovered ->
      files (FirstAvailability.main e fs) moviesFilename = fs moviesFilename) /\
     (exit (FirstAvailability.main e fs) = Completed None ->
      files (FirstAvailability.main e fs) moviesFilename =
        Some (Doc (FirstAvailability.MarshalIndent
                     (memory (FirstAvailability.main e fs)))))).
Proof.
  split.
  - intros e fs. unfold Incremental.main.
    destruct (Incremental.loadMoviesFromJSON e fs moviesFilename) as [loaded|];
      [|split; [reflexivity | discriminate]].
    destruct (Incremental.loop e _) as [[[]| |] st];
      [|split; [reflexivity | discriminate] ..].
    unfold Incremental.saveMoviesToJSON.
    destruct (writeFile e moviesFilename _) as [err|]; cbn [exit files memory].
    + split; [intros [?|?]; discriminate | discriminate].
    + split; [intros [?|?]; discriminate|]. intros _. apply writeFS_read.
  - intros e fs. unfold FirstAvailability.main.
    destruct (FirstAvailability.loadMoviesFromJSON e fs moviesFilename) as [loaded|];
      [|split; [reflexivity | discriminate]].
    destruct (FirstAvailability.loop e _) as [[[]| |] st];
      [|split; [reflexivity | discriminate] ..].
    unfold FirstAvailability.saveMoviesToJSON.
    destruct (writeFile e moviesFilename _) as [err|]; cbn [exit files memory].
    + split; [intros [?|?]; discriminate | discriminate].
    + split; [intros [?|?]; discriminate|]. intros _. apply writeFS_read.
Qed.

Lemma the_state_file_changes_only_at_the_save_witness :
  let fs := stateFile (Incremental.MarshalIndent (Some [theatreX; sixByteDate])) in
  let e := world (fun _ => Listed [item "Theatre Y" 1]) delivered true in
  let fs' := stateFile (Incremental.MarshalIndent (Some [theatreX])) in
  files (Incremental.main e fs) moviesFilename = fs moviesFilename /\
  files (Incremental.main e fs') moviesFilename =
    Some (Doc (Incremental.MarshalIndent (memory (Incremental.main e fs')))).
Proof.
  intros fs e fs'. destruct the_state_file_changes_only_at_the_save as (H & _). split.
  - destruct (H e fs) as [Hsame _]. apply Hsame. right. vm_compute. reflexivity.
  - destruct (H e fs') as [_ Hsaved]. apply Hsaved. vm_compute. reflexivity.
Defined.

(** A state file that cannot be read, is not JSON, or holds anything
    but an array or [null] at the top is fatal: either watcher exits
    before opening a page or making a call, and leaves [bms.json] as it
    was. *)
Theorem unreadable_state_is_fatal :
  forall e fs,
    (fs moviesFilename = None \/
     (exists err, fs moviesFilename = Some (Malformed err)) \/
     (exists v, fs moviesFilename = Some (Doc v) /\
                v <> JNull /\ forall items, v <> JArray items)) ->
    (Incremental.loadMoviesFromJSON e fs moviesFilename = None /\
     exit (Incremental.main e fs) = Exited /\
     posted (Incremental.main e fs) = [] /\
     files (Incremental.main e fs) moviesFilename = fs moviesFilename) /\
    (FirstAvailability.loadMoviesFromJSON e fs moviesFilename = None /\
     exit (FirstAvailability.main e fs) = Exited /\
     posted (FirstAvailability.main e fs) = [] /\
     files (FirstAvailability.main e fs) moviesFilename = fs moviesFilename).
Proof.
  intros e fs Hbad.
  assert (Hinc : Incremental.loadMoviesFromJSON e fs moviesFilename = None).
  { unfold Incremental.loadMoviesFromJSON.
    destruct Hbad as [->|[[err ->]|(v & -> & Hnull & Harr)]]; try reflexivity.
    destruct v; try reflexivity; [done | by destruct (Harr items)]. }
  assert (Hfirst : FirstAvailability.loadMoviesFromJSON e fs moviesFilename = None).
  { unfold FirstAvailability.loadMoviesFromJSON.
    destruct Hbad as [->|[[err ->]|(v & -> & Hnull & Harr)]]; try reflexivity.
    destruct v; try reflexivity; [done | by destruct (Harr items)]. }
  split.
  - unfold Incremental.main. rewrite Hinc. by split_and!.
  - unfold FirstAvailability.main. rewrite Hfirst. by split_and!.
Qed.

Lemma unreadable_state_is_fatal_witness :
  let e := world (fun _ => Listed [item "Theatre Y" 1]) delivered true in
  let fs := stateFile (JObject [("name", JString "L2: Empuraan")]) in
  (Incremental.loadMoviesFromJSON e fs moviesFilename = None /\
   exit (Incremental.main e fs) = Exited /\
   posted (Incremental.main e fs) = [] /\
   files (Incremental.main e fs) moviesFilename = fs moviesFilename) /\
  (FirstAvailability.loadMoviesFromJSON e fs moviesFilename = None /\
   exit (FirstAvailability.main e fs) = Exited /\
   posted (FirstAvailability.main e fs) = [] /\
   files (FirstAvailability.main e fs) moviesFilename = fs moviesFilename).
Proof.
  intros e fs. apply (unreadable_state_is_fatal e fs).
  right. right. exists (JObject [("name", JString "L2: Empuraan")]).
  split; [reflexivity|]. split; [discriminate|]. intros items. discriminate.
Defined.

(** ** Where the requests go *)

Lemma extendsBy_refl {T} P (st : State T) : extendsBy P st st.
Proof. exists []. split; [by rewrite app_nil_r | constructor]. Qed.

Lemma extendsBy_trans {T} P (st1 st2 st3 : State T) :
  extendsBy P st1 st2 -> extendsBy P st2 st3 -> extendsBy P st1 st3.
Proof.
  intros (x1 & H1 & F1) (x2 & H2 & F2). exists (x1 ++ x2). split.
  - by rewrite H2, H1, app_assoc.
  - by apply Forall_app.
Qed.

Lemma processMovie_extends e i (st : State Incremental.MovieDetails) :
  extendsBy (toTelegram e) st (Incremental.processMovie e i st).2.
Proof.
  destruct (Go.elems (moviesList st) !! i) as [m|] eqn:Hi.
  2:{ rewrite (processMovie_missing e i st Hi). apply extendsBy_refl. }
  destruct (Incremental.Found m) eqn:Hf.
  { rewrite (processMovie_found e i st m Hi Hf). apply extendsBy_refl. }
  rewrite (processMovie_visit e i st m Hi Hf).
  destruct (browse e i (Incremental.bookingURL m)); try apply extendsBy_refl.
  destruct (Incremental.theatreDetails theatreElements) as [obs|];
    [|apply extendsBy_refl].
  set (m' := (Incremental.reconcile m obs).1).
  set (news := (Incremental.reconcile m obs).2).
  destruct news as [|t news].
  { rewrite notify_nothing. exists []. split; [by rewrite app_nil_r | constructor]. }
  destruct (formattedDate (Incremental.Date m')) as [d|] eqn:Hd.
  - destruct (notify_sends e m' (Incremental.bookingURL m) (t :: news) d (stored i m' st) Hd)
      as (st' & -> & _ & Hreq).
    eexists. split; [exact Hreq|]. apply Forall_fmap, Forall_forall.
    intros t' _. split; [reflexivity|]. eexists _, _. reflexivity.
  - rewrite notify_panics by done. exists []. split; [by rewrite app_nil_r | constructor].
Qed.

Lemma first_processMovie_extends e i (st : State FirstAvailability.MovieDetails) :
  extendsBy (fun r => toTelegram e r \/ toIFTTT e r) st
            (FirstAvailability.processMovie e i st).2.
Proof.
  destruct (Go.elems (moviesList st) !! i) as [m|] eqn:Hi.
  2:{ rewrite (first_processMovie_missing e i st Hi). apply extendsBy_refl. }
  destruct (FirstAvailability.Found m) eqn:Hf.
  { rewrite (first_processMovie_found e i st m Hi Hf). apply extendsBy_refl. }
  rewrite (first_processMovie_visit e i st m Hi Hf).
  destruct (browse e i (FirstAvailability.bookingURL m)) as [| | | |[|el els]];
    try apply extendsBy_refl.
  destruct (formattedDate (FirstAvailability.Date (FirstAvailability.setFound m true)))
    as [d|] eqn:Hd.
  - destruct (alert_sends e (FirstAvailability.setFound m true)
                (FirstAvailability.bookingURL m) d (Z.of_nat (length (el :: els)))
                (stored i (FirstAvailability.setFound m true) st) Hd)
      as (st' & -> & _ & Hreq).
    eexists. split; [exact Hreq|]. constructor; [|constructor; [|constructor]].
    + left. split; [reflexivity|]. eexists _, _. reflexivity.
    + right. split; [reflexivity|]. eexists. reflexivity.
  - rewrite alert_panics by exact Hd. exists []. split; [by rewrite app_nil_r | constructor].
Qed.

Lemma incremental_sent_to_telegram e fs :
  Forall (toTelegram e) (sent (Incremental.main e fs)).
Proof.
  destruct (Incremental.loadMoviesFromJSON e fs moviesFilename) as [loaded|] eqn:Hl.
  2:{ unfold sent, Incremental.main. rewrite Hl. constructor. }
  destruct (main_memory e fs loaded Hl) as [_ Hposted]. unfold sent. rewrite Hposted.
  destruct (forEach_preserves (extendsBy (toTelegram e)) (Incremental.processMovie e)
              (extendsBy_refl _) (extendsBy_trans _)
              (fun x s => processMovie_extends e x s)
              (seq 0 (length (Go.elems loaded)))
              {| moviesList := loaded; calls := [] |}) as (extra & Hreq & Hall).
  change (requests {| moviesList := loaded; calls := [] |}) with (@nil (string * value))
    in Hreq.
  rewrite app_nil_l in Hreq. unfold requests in Hreq.
  unfold Incremental.loop, bind, get. cbn [moviesList]. rewrite Hreq. exact Hall.
Qed.

Lemma first_sent_to_endpoints e fs :
  Forall (fun r => toTelegram e r \/ toIFTTT e r) (sent (FirstAvailability.main e fs)).
Proof.
  destruct (FirstAvailability.loadMoviesFromJSON e fs moviesFilename) as [loaded|] eqn:Hl.
  2:{ unfold sent, FirstAvailability.main. rewrite Hl. constructor. }
  destruct (first_main_memory e fs loaded Hl) as [_ Hposted]. unfold sent. rewrite Hposted.
  destruct (forEach_preserves (extendsBy (fun r => toTelegram e r \/ toIFTTT e r))
              (FirstAvailability.processMovie e)
              (extendsBy_refl _) (extendsBy_trans _)
              (fun x s => first_processMovie_extends e x s)
              (seq 0 (length (Go.elems loaded)))
              {| moviesList := loaded; calls := [] |}) as (extra & Hreq & Hall).
  change (requests {| moviesList := loaded; calls := [] |}) with (@nil (string * value))
    in Hreq.
  rewrite app_nil_l in Hreq. unfold requests in Hreq.
  unfold FirstAvailability.loop, bind, get. cbn [moviesList]. rewrite Hreq. exact Hall.
Qed.

(** Whatever the pages show and however the run ends, every request of
    the incremental watcher is a Markdown message for the configured
    chat posted to the bot's [sendMessage] address with a single
    [Book Now] button; the first-availability watcher makes such
    requests and one-value posts to the IFTTT webhook, nothing else. *)
Theorem requests_go_to_the_configured_endpoints :
  (forall e fs, Forall (toTelegram e) (sent (Incremental.main e fs))) /\
  (forall e fs,
     Forall (fun r => toTelegram e r \/ toIFTTT e r) (sent (FirstAvailability.main e fs))).
Proof.
  split; [exact incremental_sent_to_telegram | exact first_sent_to_endpoints].
Qed.

(** ** The texts built with [Sprintf] *)

Lemma apiURL_text e :
  apiURL e = "https://api.telegram.org/bot" +:+ telegramBotToken e +:+ "/sendMessage".
Proof. vm_compute. reflexivity. Qed.

(** The two page addresses, as texts: the incremental watcher opens
    [.../movies/{city}/{slug}/buytickets/{code}/{date}], the
    first-availability watcher
    [.../buytickets/{slug}-{city}/movie-{city_code}-{code}-MT/{date}];
    no field is escaped or checked. *)
Theorem bookingURL_texts :
  (forall m,
     Incremental.bookingURL m =
     "https://in.bookmyshow.com/movies/" +:+ Incremental.City m +:+ "/" +:+
     Incremental.SlugName m +:+ "/buytickets/" +:+ Incremental.Code m +:+ "/" +:+
     Incremental.Date m) /\
  (forall m,
     FirstAvailability.bookingURL m =
     "https://in.bookmyshow.com/buytickets/" +:+ FirstAvailability.SlugName m +:+ "-" +:+
     FirstAvailability.City m +:+ "/movie-" +:+ FirstAvailability.CityCode m +:+ "-" +:+
     FirstAvailability.Code m +:+ "-MT/" +:+ FirstAvailability.Date m).
Proof.
  split; intros m.
  - rewrite <- (append_empty_r (Incremental.Date m)) at 1. vm_compute. reflexivity.
  - rewrite <- (append_empty_r (FirstAvailability.Date m)) at 1. vm_compute. reflexivity.
Qed.

(** The two messages, as texts: the values are inserted between the
    asterisks as they are (no Markdown escaping), the counts in
    decimal. *)
Theorem notification_texts :
  (forall m formattedDate theatre,
     Incremental.notificationMsg m formattedDate theatre =
     "🎬 *New Show Added!*" +:+ Go.nl +:+ Go.nl +:+
     "🎥 Movie: *" +:+ Incremental.Name m +:+ "*" +:+ Go.nl +:+
     "📅 Date: *" +:+ formattedDate +:+ "*" +:+ Go.nl +:+
     "🏟️ Theatre: *" +:+ Theatre.Name theatre +:+ "*" +:+ Go.nl +:+
     "Shows: *" +:+ Go.itoa (Theatre.ShowCount theatre) +:+ "*") /\
  (forall e m formattedDate theatres,
     FirstAvailability.notificationMsg e m formattedDate theatres =
     "🎬 *ALERT: Bookings Started!*" +:+ Go.nl +:+ Go.nl +:+
     "🎥 Movie: *" +:+ FirstAvailability.Name m +:+ "*" +:+ Go.nl +:+
     "📅 Date: *" +:+ formattedDate +:+ "*" +:+ Go.nl +:+
     "🏟️ Found " +:+ Go.itoa theatres +:+ " theatres in *" +:+
     Title e (FirstAvailability.City m) +:+ "*").
Proof.
  split.
  - intros m d t. vm_compute. reflexivity.
  - intros e m d n. vm_compute. reflexivity.
Qed.

(** ** Start-up *)

(** [init] returns exactly when [.env] loads, the credentials are set to
    non-empty values, the log file opens and a browser is available; the
    globals are then those values.  Anything else is fatal, and then
    the process makes no call and leaves [bms.json] as it was.  So every
    request of a run carries a non-empty bot token in its address. *)
Theorem init_demands_the_credentials :
  (forall os g,
     incrementalInit os = Ok g <->
     dotenv os = None /\
     Getenv os "TELEGRAM_BOT_TOKEN" <> "" /\
     Getenv os "TELEGRAM_CHAT_ID" <> "" /\
     OpenFile os logFilename = None /\
     browserGet os = None /\
     g = {| botToken := Getenv os "TELEGRAM_BOT_TOKEN";
            chatID := Getenv os "TELEGRAM_CHAT_ID";
            webhook := "" |}) /\
  (forall os g,
     firstInit os = Ok g <->
     dotenv os = None /\
     Getenv os "TELEGRAM_BOT_TOKEN" <> "" /\
     Getenv os "TELEGRAM_CHAT_ID" <> "" /\
     Getenv os "IFTTT_WEBHOOK_API" <> "" /\
     OpenFile os logFilename = None /\
     browserGet os = None /\
     g = {| botToken := Getenv os "TELEGRAM_BOT_TOKEN";
            chatID := Getenv os "TELEGRAM_CHAT_ID";
            webhook := Getenv os "IFTTT_WEBHOOK_API" |}) /\
  (forall os e fs,
     (forall g, incrementalInit os <> Ok g) ->
     exit (incrementalProgram os e fs) = Exited /\
     posted (incrementalProgram os e fs) = [] /\
     files (incrementalProgram os e fs) moviesFilename = fs moviesFilename) /\
  (forall os e fs,
     (forall g, firstInit os <> Ok g) ->
     exit (firstProgram os e fs) = Exited /\
     posted (firstProgram os e fs) = [] /\
     files (firstProgram os e fs) moviesFilename = fs moviesFilename) /\
  (forall os e fs,
     Forall (fun r => Getenv os "TELEGRAM_BOT_TOKEN" <> "" /\
                      r.1 = "https://api.telegram.org/bot" +:+
                            Getenv os "TELEGRAM_BOT_TOKEN" +:+ "/sendMessage")
            (sent (incrementalProgram os e fs))).
Proof.
  assert (Hinc : forall os g,
     incrementalInit os = Ok g <->
     dotenv os = None /\
     Getenv os "TELEGRAM_BOT_TOKEN" <> "" /\
     Getenv os "TELEGRAM_CHAT_ID" <> "" /\
     OpenFile os logFilename = None /\
     browserGet os = None /\
     g = {| botToken := Getenv os "TELEGRAM_BOT_TOKEN";
            chatID := Getenv os "TELEGRAM_CHAT_ID";
            webhook := "" |}).
  { intros os g. unfold incrementalInit.
    destruct (dotenv os); [split; [discriminate | by intros (? & _)]|].
    destruct (String.eqb_spec (Getenv os "TELEGRAM_BOT_TOKEN") "");
      [split; [discriminate | by intros (_ & ? & _)]|].
    destruct (String.eqb_spec (Getenv os "TELEGRAM_CHAT_ID") "");
      [split; [discriminate | by intros (_ & _ & ? & _)]|].
    destruct (OpenFile os logFilename);
      [split; [discriminate | by intros (_ & _ & _ & ? & _)]|].
    destruct (browserGet os);
      [split; [discriminate | by intros (_ & _ & _ & _ & ? & _)]|].
    split.
    - intros [= <-]. by split_and!.
    - intros (_ & _ & _ & _ & _ & ->). reflexivity. }
  split_and!.
  - exact Hinc.
  - intros os g. unfold firstInit.
    destruct (dotenv os); [split; [discriminate | by intros (? & _)]|].
    destruct (String.eqb_spec (Getenv os "TELEGRAM_BOT_TOKEN") "");
      [split; [discriminate | by intros (_ & ? & _)]|].
    destruct (String.eqb_spec (Getenv os "TELEGRAM_CHAT_ID") "");
      [split; [discriminate | by intros (_ & _ & ? & _)]|].
    destruct (String.eqb_spec (Getenv os "IFTTT_WEBHOOK_API") "");
      [split; [discriminate | by intros (_ & _ & _ & ? & _)]|].
    destruct (OpenFile os logFilename);
      [split; [discriminate | by intros (_ & _ & _ & _ & ? & _)]|].
    destruct (browserGet os);
      [split; [discriminate | by intros (_ & _ & _ & _ & _ & ? & _)]|].
    split.
    + intros [= <-]. by split_and!.
    + intros (_ & _ & _ & _ & _ & _ & ->). reflexivity.
  - intros os e fs Hno. unfold incrementalProgram.
    destruct (incrementalInit os) as [g| |]; [by destruct (Hno g) | by split_and! ..].
  - intros os e fs Hno. unfold firstProgram.
    destruct (firstInit os) as [g| |]; [by destruct (Hno g) | by split_and! ..].
  - intros os e fs. unfold incrementalProgram.
    destruct (incrementalInit os) as [g| |] eqn:Hg; [|constructor..].
    apply Hinc in Hg as (_ & Htoken & _ & _ & _ & ->).
    eapply Forall_impl; [apply incremental_sent_to_telegram|].
    intros r [Hurl _]. split; [exact Htoken|]. rewrite Hurl. apply apiURL_text.
Qed.

Lemma init_demands_the_credentials_witness :
  let os := machine "123:ABC" "" "https://maker.ifttt.com/trigger" in
  let e := world (fun _ => Listed [item "Theatre Y" 1]) delivered true in
  let fs := stateFile (Incremental.MarshalIndent (Some [theatreX])) in
  exit (incrementalProgram os e fs) = Exited /\
  posted (incrementalProgram os e fs) = [] /\
  files (incrementalProgram os e fs) moviesFilename = fs moviesFilename.
Proof.
  intros os e fs. destruct init_demands_the_credentials as (_ & _ & H & _).
  apply (H os e fs). intros g. vm_compute. discriminate.
Defined.

(** ** The date, byte by byte *)

(** On a date of at least 8 bytes [formattedDate] gives 10 bytes that
    depend on the first 8 only -- nothing checks that they are digits
    and anything after them is ignored -- and from which these 8 bytes
    can be read back in their order. *)
Theorem formattedDate_reads_the_first_eight_bytes :
  forall showDate,
    (8 <= String.length showDate)%nat ->
    exists formatted,
      formattedDate showDate = Some formatted /\
      String.length formatted = 10%nat /\
      formattedDate (substring 0 8 showDate) = Some formatted /\
      substring 6 4 formatted +:+ substring 3 2 formatted +:+ substring 0 2 formatted
        = substring 0 8 showDate.
Proof.
  intros d Hlen.
  destruct d as [|c1 [|c2 [|c3 [|c4 [|c5 [|c6 [|c7 [|c8 rest]]]]]]]];
    cbn in Hlen; try lia.
  set (d := String c1 (String c2 (String c3 (String c4
              (String c5 (String c6 (String c7 (String c8 rest)))))))).
  assert (H0 : substring 0 0 rest = "") by (by destruct rest).
  assert (Hdd : Go.substr d 6 8 = Some (String c7 (String c8 ""))).
  { unfold Go.substr, d. cbn. by rewrite H0. }
  assert (Hmm : Go.substr d 4 6 = Some (String c5 (String c6 ""))) by reflexivity.
  assert (Hyyyy : Go.substr d 0 4 =
                  Some (String c1 (String c2 (String c3 (String c4 ""))))) by reflexivity.
  assert (H8 : substring 0 8 d =
               String c1 (String c2 (String c3 (String c4
                 (String c5 (String c6 (String c7 (String c8 ""))))))))
    by (unfold d; cbn; by rewrite H0).
  exists (String c7 (String c8 (String "-" (String c5 (String c6 (String "-"
            (String c1 (String c2 (String c3 (String c4 "")))))))))).
  split.
  { unfold formattedDate. rewrite Hdd, Hmm, Hyyyy. reflexivity. }
  split; [reflexivity|]. rewrite H8. split; reflexivity.
Qed.

Lemma formattedDate_reads_the_first_eight_bytes_witness :
  exists formatted,
    formattedDate "2025O327T18:30" = Some formatted /\
    String.length formatted = 10%nat /\
    formattedDate (substring 0 8 "2025O327T18:30") = Some formatted /\
    substring 6 4 formatted +:+ substring 3 2 formatted +:+ substring 0 2 formatted
      = substring 0 8 "2025O327T18:30".
Proof.
  apply (formattedDate_reads_the_first_eight_bytes "2025O327T18:30"). vm_compute. lia.
Defined.

(** ** The two senders *)

Lemma Errorf_not_nil format args : Errorf format args <> None.
Proof. unfold Errorf. discriminate. Qed.

(** [sendTelegramNotification] makes exactly one request, to the bot's
    address, leaves the list of targets alone, and returns nil exactly
    when the answer is a JSON document that decodes with [ok] true: a
    transport error, an unreadable or malformed body, a type mismatch and
    an [ok] that is false or absent are all errors.
    [sendIFTTTVoipCall] makes exactly one request to the webhook and
    returns nil as soon as the body could be read, whatever it says. *)
Theorem senders_make_one_request_each :
  (forall T e chatID message parseMode keyboard (st : State T),
     exists ev,
       sendTelegramNotification e chatID message parseMode keyboard st =
         (Ok (telegramError e (response ev)),
          {| moviesList := moviesList st; calls := calls st ++ [ev] |}) /\
       url ev = apiURL e /\
       payload ev = telegramPayload chatID message parseMode keyboard /\
       response ev = httpPost e (calls st) (url ev) (payload ev)) /\
  (forall e response,
     telegramError e response = None <->
     exists v answer,
       response = Body (Doc v) /\
       into_struct (foldName e) ["ok"; "description"] set_apiResponse
         {| ApiOk := false; Description := "" |} v = Some answer /\
       ApiOk answer = true) /\
  (forall T e value (st : State T),
     exists ev err,
       sendIFTTTVoipCall e value st =
         (Ok err, {| moviesList := moviesList st; calls := calls st ++ [ev] |}) /\
       url ev = iftttWebhookAPI e /\
       payload ev = JObject [("value1", JString value)] /\
       response ev = httpPost e (calls st) (url ev) (payload ev) /\
       (err = None <-> exists c, response ev = Body c)).
Proof.
  split; [|split].
  - intros T e chat msg pm kb st.
    exists {| url := apiURL e;
              payload := telegramPayload chat msg pm kb;
              response := httpPost e (calls st) (apiURL e) (telegramPayload chat msg pm kb) |}.
    split; [apply sendTelegramNotification_spec|].
    cbn [url payload response]. split; [reflexivity|]. split; reflexivity.
  - intros e r. unfold telegramError. split.
    + destruct r as [err|err|[err|v]];
        try (intros H; destruct (Errorf_not_nil _ _ H)).
      destruct (into_struct _ _ _ _ v) as [a|] eqn:Ha;
        [|intros H; destruct (Errorf_not_nil _ _ H)].
      destruct (ApiOk a) eqn:Hok; [|intros H; destruct (Errorf_not_nil _ _ H)].
      intros _. exists v, a. split; [reflexivity|]. split; [exact Ha | exact Hok].
    + intros (v & a & -> & Ha & Hok). rewrite Ha, Hok. reflexivity.
  - intros T e v st. unfold sendIFTTTVoipCall, bind, Post.
    set (body := JObject [("value1", JString v)]).
    exists {| url := iftttWebhookAPI e; payload := body;
              response := httpPost e (calls st) (iftttWebhookAPI e) body |}.
    cbn [url payload response].
    destruct (httpPost e (calls st) (iftttWebhookAPI e) body) as [err|err|c].
    + eexists. split; [reflexivity|]. split; [reflexivity|]. split; [reflexivity|].
      split; [reflexivity|].
      split; [intros H; destruct (Errorf_not_nil _ _ H) | intros [c Hc]; discriminate Hc].
    + eexists. split; [reflexivity|]. split; [reflexivity|]. split; [reflexivity|].
      split; [reflexivity|].
      split; [intros H; destruct (Errorf_not_nil _ _ H) | intros [c Hc]; discriminate Hc].
    + eexists. split; [reflexivity|]. split; [reflexivity|]. split; [reflexivity|].
      split; [reflexivity|]. split; [intros _; by exists c | reflexivity].
Qed.

(** ** A run without faults, target by target *)

Lemma requests_stored {T} i (m : T) (st : State T) : requests (stored i m st) = requests st.
Proof. reflexivity. Qed.






(** ** The extraction loop *)

(** The extraction of a listing has a result exactly when the name
    element of every item was found; the result then has one
    observation per item, in page order, whose name is the text read
    (empty when reading it failed) and whose count is the number of show
    elements (zero when their lookup failed), never negative. *)
Theorem extraction_is_itemwise :
  (forall theatreElements,
     is_Some (Incremental.theatreDetails theatreElements) <->
     Forall (fun theatreEl => nameDiv theatreEl <> None) theatreElements) /\
  (forall theatreElements obs,
     Incremental.theatreDetails theatreElements = Some obs ->
     obs = observed <$> theatreElements /\
     length obs = length theatreElements /\
     Forall (fun t => 0 <= Theatre.ShowCount t) obs).
Proof.
  assert (Hone : forall el, nameDiv el <> None ->
                   Incremental.theatreDetail el = Some (observed el)).
  { intros el Hne. unfold Incremental.theatreDetail, observed.
    destruct (nameDiv el) as [text|]; [reflexivity | done]. }
  assert (Hall : forall els obs, Incremental.theatreDetails els = Some obs ->
                   Forall (fun el => nameDiv el <> None) els).
  { intros els obs H. apply Forall_forall. intros el Hin Hnone.
    assert (Hx : Incremental.theatreDetails els = None).
    { apply mapM_None, Exists_exists. exists el. split; [exact Hin|].
      unfold Incremental.theatreDetail. by rewrite Hnone. }
    congruence. }
  assert (Hmap : forall els, Forall (fun el => nameDiv el <> None) els ->
                   Incremental.theatreDetails els = Some (observed <$> els)).
  { intros els H. apply mapM_Some. apply Forall2_fmap_r, Forall_Forall2_diag.
    eapply Forall_impl; [exact H|]. intros el Hne. by apply Hone. }
  split.
  - intros els. split.
    + intros [obs H]. by apply (Hall els obs).
    + intros H. rewrite (Hmap els H). by eexists.
  - intros els obs H. pose proof (Hmap els (Hall els obs H)) as H'.
    rewrite H in H'. injection H' as ->. split; [reflexivity|].
    split; [by rewrite length_fmap|].
    apply Forall_fmap, Forall_forall. intros el _. cbn. lia.
Qed.

Lemma extraction_is_itemwise_witness :
  [seen "Theatre Y" 0; seen "" 3] =
    observed <$> [ {| nameDiv := Some (Some "Theatre Y"); shows := None |};
                   {| nameDiv := Some None; shows := Some 3%nat |} ] /\
  length [seen "Theatre Y" 0; seen "" 3] = 2%nat /\
  Forall (fun t => 0 <= Theatre.ShowCount t) [seen "Theatre Y" 0; seen "" 3].
Proof.
  destruct extraction_is_itemwise as (_ & H).
  apply (H [ {| nameDiv := Some (Some "Theatre Y"); shows := None |};
             {| nameDiv := Some None; shows := Some 3%nat |} ]
           [seen "Theatre Y" 0; seen "" 3]).
  reflexivity.
Defined.

(** ** The two alerts of the first-availability watcher go together *)

Lemma extendsByPairs_refl e st : extendsByPairs e st st.
Proof. exists []. split; [by rewrite app_nil_r | constructor]. Qed.

Lemma extendsByPairs_trans e st1 st2 st3 :
  extendsByPairs e st1 st2 -> extendsByPairs e st2 st3 -> extendsByPairs e st1 st3.
Proof.
  intros (x1 & H1 & F1) (x2 & H2 & F2). exists (x1 ++ x2). split.
  - rewrite H2, H1. unfold inPairs. by rewrite fmap_app, join_app, app_assoc.
  - by apply Forall_app.
Qed.

Lemma first_processMovie_pairs e i (st : State FirstAvailability.MovieDetails) :
  extendsByPairs e st (FirstAvailability.processMovie e i st).2.
Proof.
  destruct (Go.elems (moviesList st) !! i) as [m|] eqn:Hi.
  2:{ rewrite (first_processMovie_missing e i st Hi). apply extendsByPairs_refl. }
  destruct (FirstAvailability.Found m) eqn:Hf.
  { rewrite (first_processMovie_found e i st m Hi Hf). apply extendsByPairs_refl. }
  rewrite (first_processMovie_visit e i st m Hi Hf).
  destruct (browse e i (FirstAvailability.bookingURL m)) as [| | | |[|el els]];
    try apply extendsByPairs_refl.
  destruct (formattedDate (FirstAvailability.Date (FirstAvailability.setFound m true)))
    as [d|] eqn:Hd.
  - destruct (alert_sends e (FirstAvailability.setFound m true)
                (FirstAvailability.bookingURL m) d (Z.of_nat (length (el :: els)))
                (stored i (FirstAvailability.setFound m true) st) Hd)
      as (st' & -> & _ & Hreq).
    eexists [(_, _)]. split; [exact Hreq|]. constructor; [|constructor]. split.
    + split; [reflexivity|]. eexists _, _. reflexivity.
    + split; [reflexivity|]. eexists. reflexivity.
  - rewrite alert_panics by exact Hd. exists []. cbn [snd].
    rewrite requests_stored. split; [by rewrite app_nil_r | constructor].
Qed.

(** Whatever Telegram answers and however the run ends, the requests of
    a first-availability run are a sequence of pairs: each Telegram
    alert is followed at once by the IFTTT call for the same target, so
    a failed Telegram delivery never suppresses the call, and no call is
    made without an alert before it. *)
Theorem first_alerts_come_in_pairs :
  forall e fs,
    exists pairs,
      sent (FirstAvailability.main e fs) = inPairs pairs /\ Forall (alertPair e) pairs.
Proof.
  intros e fs.
  destruct (FirstAvailability.loadMoviesFromJSON e fs moviesFilename) as [loaded|] eqn:Hl.
  2:{ exists []. unfold sent, FirstAvailability.main. rewrite Hl. by split. }
  destruct (first_main_memory e fs loaded Hl) as [_ Hposted]. unfold sent. rewrite Hposted.
  destruct (forEach_preserves (extendsByPairs e) (FirstAvailability.processMovie e)
              (extendsByPairs_refl e) (extendsByPairs_trans e)
              (fun x s => first_processMovie_pairs e x s)
              (seq 0 (length (Go.elems loaded)))
              {| moviesList := loaded; calls := [] |}) as (pairs & Hreq & Hall).
  change (requests {| moviesList := loaded; calls := [] |}) with (@nil (string * value))
    in Hreq.
  rewrite app_nil_l in Hreq. unfold requests in Hreq.
  exists pairs. split; [|exact Hall].
  unfold FirstAvailability.loop, bind, get. cbn [moviesList]. exact Hreq.
Qed.

(** ** A target that panics *)



Lemma senders_make_one_request_each_witness :
  telegramError (world (fun _ => NoContainer) delivered true) delivered = None.
Proof.
  destruct senders_make_one_request_each as (_ & H & _).
  apply (H (world (fun _ => NoContainer) delivered true) delivered).
  exists (JObject [("ok", JBool true)]), {| ApiOk := true; Description := "" |}.
  split; [reflexivity|]. split; reflexivity.
Defined.

(** * Faults, the save and the next run *)

Section Loops3.
Context {T : Type}.
Implicit Types (st : State T) (body : nat -> M (State T) unit).


End Loops3.

Section IncrementalEnds.
Import Incremental.
Implicit Types (e : Env) (st : State MovieDetails) (m : MovieDetails).










End IncrementalEnds.



Section FirstEnds.
Implicit Types (e : Env) (st : State FirstAvailability.MovieDetails)
  (m : FirstAvailability.MovieDetails).




End FirstEnds.



